(** * aframe-firebase-component: the synchronisation system of [src/index.js]

    A shallow embedding of the [firebase] system (tables, remote event
    handlers, registration and the outbound broadcast tick) together with
    the two attribute accessors at the bottom of the file.

    Conventions of the embedding.
    - JavaScript values are the type [value]; numbers are restricted to
      integers, which is all the code compares and subtracts.
    - A JavaScript object used as a record is an association list in
      insertion order, the order of [Object.keys] for keys that are not
      array indices.  The two tables of the system are finite maps; the
      tick enumerates the Broadcast Table in the order of [map_to_list],
      and the order of its calls shows only in the order of the updates in
      the log and in which call an exception cuts the pass short.
      Identifiers are assumed not to collide with the property names of
      [Object.prototype].
    - The scene graph is a heap of elements addressed by handles; the
      element created by [document.createElement] gets the next handle.
    - A function that may raise returns a [completion] together with the
      state reached when it stopped: a JavaScript exception does not undo
      the assignments made before it. *)

From Stdlib Require Import ZArith Lia Ascii String Sorted.
From stdpp Require Import base option list strings pretty gmap.

Local Open Scope string_scope.

(** ** JavaScript values *)

#[warnings="-register-all"]
Inductive value : Type :=
| VUndefined
| VNull
| VBool (b : bool)
| VNum (n : Z)
| VStr (s : string)
| VArr (l : list value)
| VObj (o : list (string * value)).

Abbreviation object := (list (string * value)).

Module Obj.

(** [o[k]] restricted to own properties. *)
Fixpoint get (k : string) (o : object) : option value :=
  match o with
  | [] => None
  | (k', v) :: o' => if String.eqb k' k then Some v else get k o'
  end.

(** [o[k] = v]: an existing key keeps its position, a new one comes last. *)
Fixpoint set (k : string) (v : value) (o : object) : object :=
  match o with
  | [] => [(k, v)]
  | (k', v') :: o' =>
      if String.eqb k' k then (k, v) :: o' else (k', v') :: set k v o'
  end.

(** [Object.keys(o)]. *)
Definition keys (o : object) : list string := remove_dups (o.*1).

(** [o[k]] as a value: a missing property reads as [undefined]. *)
Definition read (k : string) (o : object) : value :=
  default VUndefined (get k o).

End Obj.

(** The exceptions the code can raise by itself. *)
Inductive exn : Type :=
| TypeError
| HierarchyRequestError
| StoreError.          (* the store refuses the data it is given *)

Inductive completion (A : Type) : Type :=
| Normal (a : A)
| Throw (e : exn).
Arguments Normal {A} a.
Arguments Throw {A} e.

(** ToBoolean. *)
Definition truthy (v : value) : bool :=
  match v with
  | VUndefined | VNull => false
  | VBool b => b
  | VNum n => negb (n =? 0)%Z
  | VStr s => negb (String.eqb s "")
  | VArr _ | VObj _ => true
  end.

(** ToString, as used for property keys and string concatenation. *)
Fixpoint toString (v : value) : string :=
  match v with
  | VUndefined => "undefined"
  | VNull => "null"
  | VBool true => "true"
  | VBool false => "false"
  | VNum n => pretty n
  | VStr s => s
  | VArr l =>
      String.concat ","
        (map (fun x => match x with
                       | VUndefined | VNull => ""
                       | _ => toString x
                       end) l)
  | VObj _ => "[object Object]"
  end.

(** [x[k]] for an arbitrary value [x]: reading a property of [undefined] or
    [null] raises; primitives and arrays have none of the properties the
    code asks for. *)
Definition member (x : value) (k : string) : completion value :=
  match x with
  | VUndefined | VNull => Throw TypeError
  | VObj o => Normal (Obj.read k o)
  | _ => Normal VUndefined
  end.

(** Whether [undefined] occurs in a value, at any depth. *)
Fixpoint hasUndefined (v : value) : bool :=
  match v with
  | VUndefined => true
  | VArr l => existsb hasUndefined l
  | VObj o => existsb (fun p => hasUndefined (snd p)) o
  | _ => false
  end.

(** [attribute.split('|')]. *)
Fixpoint splitBar (acc : string) (s : string) : list string :=
  match s with
  | EmptyString => [String.rev acc]
  | String c s' =>
      if Ascii.eqb c "|"%char then String.rev acc :: splitBar "" s'
      else splitBar (String c acc) s'
  end.
Definition split (s : string) : list string := splitBar "" s.

(** ** Elements of the scene graph *)

Abbreviation handle := nat.

Record El : Type := mkEl {
  attrs : gmap string value;          (* attribute / component data as written *)
  parentNode : option handle;
  firebaseBroadcastOnce : bool        (* the flag the tick hangs on the element *)
}.

Definition newEl : El :=
  {| attrs := ∅; parentNode := None; firebaseBroadcastOnce := false |}.

Module Element.

(** [el.getAttribute(name)]: the data as written, [null] when absent. *)
Definition getAttribute (e : El) (name : string) : value :=
  default VNull (attrs e !! name).

(** [el.setAttribute(name, value)]. *)
Definition setAttribute (e : El) (name : string) (v : value) : El :=
  {| attrs := <[name := v]> (attrs e);
     parentNode := parentNode e;
     firebaseBroadcastOnce := firebaseBroadcastOnce e |}.

Definition props (v : option value) : object :=
  match v with Some (VObj o) => o | _ => [] end.

(** [el.setAttribute(name, prop, value)]: one property of a component. *)
Definition setProperty (e : El) (name prop : string) (v : value) : El :=
  setAttribute e name (VObj (Obj.set prop v (props (attrs e !! name)))).

Definition setParent (e : El) (p : option handle) : El :=
  {| attrs := attrs e; parentNode := p;
     firebaseBroadcastOnce := firebaseBroadcastOnce e |}.

Definition setOnce (e : El) (b : bool) : El :=
  {| attrs := attrs e; parentNode := parentNode e;
     firebaseBroadcastOnce := b |}.

End Element.

(** ** The [firebase-broadcast] component: its schema and computed data *)

Record BroadcastData : Type := mkBroadcastData {
  bd_id : string;                   (* default '' *)
  bd_components : list string;      (* default ['position', 'rotation'] *)
  bd_componentsOnce : list string;  (* default [] *)
  bd_shared : bool;                 (* default false *)
  bd_owner : string                 (* default '' *)
}.

Definition schemaString (o : object) (k : string) : string :=
  match Obj.get k o with Some (VStr s) => s | _ => "" end.

Definition schemaBool (o : object) (k : string) : bool :=
  match Obj.get k o with Some (VBool b) => b | _ => false end.

Definition schemaArray (o : object) (k : string) (d : list string) : list string :=
  match Obj.get k o with Some (VArr l) => map toString l | _ => d end.

Definition schemaData (o : object) : BroadcastData :=
  {| bd_id := schemaString o "id";
     bd_components := schemaArray o "components" ["position"; "rotation"];
     bd_componentsOnce := schemaArray o "componentsOnce" [];
     bd_shared := schemaBool o "shared";
     bd_owner := schemaString o "owner" |}.

(** [el.getComputedAttribute('firebase-broadcast')]: the written data
    completed with the schema defaults; [None] (a null result) when the
    element has no such component. *)
Definition computedBroadcast (e : El) : option BroadcastData :=
  match attrs e !! "firebase-broadcast" with
  | None => None
  | Some v => Some (schemaData (Element.props (Some v)))
  end.

Definition broadcastValue (b : BroadcastData) : value :=
  VObj [("id", VStr (bd_id b));
        ("components", VArr (map VStr (bd_components b)));
        ("componentsOnce", VArr (map VStr (bd_componentsOnce b)));
        ("shared", VBool (bd_shared b));
        ("owner", VStr (bd_owner b))].

(** [el.getComputedAttribute(name)] for any name.  The schemas of the other
    components belong to the host and are not modelled: the attribute map
    of an element stands for the data the host holds for each name, and the
    computed data of a component other than [firebase-broadcast] is that
    data.  How the host turns a written value into the data it holds (a
    position string into its coordinates, a number into a string) is
    therefore outside the model, and no property below relates a value
    read to a value written. *)
Definition computedAttribute (e : El) (name : string) : value :=
  if String.eqb name "firebase-broadcast"
  then match computedBroadcast e with
       | Some b => broadcastValue b
       | None => VNull
       end
  else Element.getAttribute e name.

(** ** The remote store, seen from the client *)

Inductive StoreOp : Type :=
| Subscribe (event : string)              (* once / on, under [entities] *)
| Update (path : string) (data : object)  (* child(path).update(data) *)
| OnDisconnectRemove (path : string).     (* child(path).onDisconnect().remove() *)

(** The key of the [n]-th [push()]. *)
Definition pushKey (n : nat) : string := "-K" ++ pretty n.

(** ** The system object ([this]) and the scene *)

Record System : Type := mkSystem {
  sceneEl : handle;
  clientId : string;
  firebase : bool;                          (* [this.firebase] is set *)
  database : option string;                 (* reference to the channel *)
  interval : option Z;
  time : option Z;                          (* undefined until a pass ran *)
  entities : gmap string (option handle);   (* Replica Table; a hit may be null *)
  broadcastingEntities : gmap string handle;(* Broadcast Table *)
  document : list El;                       (* element heap, indexed by handle *)
  pushed : nat;                             (* keys handed out by [push()] *)
  store : list StoreOp                      (* operations issued, oldest first *)
}.

Definition setEntities (m : gmap string (option handle)) (s : System) : System :=
  mkSystem (sceneEl s) (clientId s) (firebase s) (database s) (interval s)
    (time s) m (broadcastingEntities s) (document s) (pushed s) (store s).

Definition setBroadcastingEntities (m : gmap string handle) (s : System) : System :=
  mkSystem (sceneEl s) (clientId s) (firebase s) (database s) (interval s)
    (time s) (entities s) m (document s) (pushed s) (store s).

Definition setDocument (d : list El) (s : System) : System :=
  mkSystem (sceneEl s) (clientId s) (firebase s) (database s) (interval s)
    (time s) (entities s) (broadcastingEntities s) d (pushed s) (store s).

Definition setTime (t : option Z) (s : System) : System :=
  mkSystem (sceneEl s) (clientId s) (firebase s) (database s) (interval s)
    t (entities s) (broadcastingEntities s) (document s) (pushed s) (store s).

Definition setPushed (n : nat) (s : System) : System :=
  mkSystem (sceneEl s) (clientId s) (firebase s) (database s) (interval s)
    (time s) (entities s) (broadcastingEntities s) (document s) n (store s).

Definition issue (op : StoreOp) (s : System) : System :=
  mkSystem (sceneEl s) (clientId s) (firebase s) (database s) (interval s)
    (time s) (entities s) (broadcastingEntities s) (document s) (pushed s)
    (store s ++ [op]).

(** [this.entities[id]] as a reference: [None] when undefined or null. *)
Definition replica (s : System) (id : string) : option handle :=
  default None (entities s !! id).

(** The test of line 77: the identifier is already known. *)
Definition known (s : System) (id : string) : bool :=
  bool_decide (is_Some (replica s id))
  || bool_decide (is_Some (broadcastingEntities s !! id)).

(** A reference followed into the heap: [None] for undefined, null or a
    handle that names no element. *)
Definition deref (s : System) (r : option handle) : option (handle * El) :=
  match r with
  | None => None
  | Some h => match document s !! h with
              | None => None
              | Some e => Some (h, e)
              end
  end.

(** ** Computations on the system: state and exceptions *)

Definition M (A : Type) : Type := System -> completion A * System.

Definition ret {A} (a : A) : M A := fun s => (Normal a, s).

Definition throw {A} (e : exn) : M A := fun s => (Throw e, s).

Definition bind {A B} (m : M A) (k : A -> M B) : M B := fun s =>
  match m s with
  | (Normal a, s') => k a s'
  | (Throw e, s') => (Throw e, s')
  end.

Notation "'let*' x ':=' m 'in' k" := (bind m (fun x => k))
  (at level 10, x name, m at level 100, k at level 200, only parsing).

(** [list.forEach(f)]: the first exception ends the loop. *)
Fixpoint forEach {A} (f : A -> M unit) (l : list A) : M unit :=
  match l with
  | [] => ret tt
  | x :: l' => let* _ := f x in forEach f l'
  end.

(** ** The attribute accessors (lines 250-270) *)

Definition getComputedAttribute (e : El) (attribute : string) : completion value :=
  match split attribute with
  | [c; p] => member (computedAttribute e c) p
  | _ => Normal (computedAttribute e attribute)
  end.

(** [el] is a reference that may be undefined or null ([None]).  The write
    itself is all that is modelled.  On the host, the first write of
    [firebase-broadcast] on an element also initialises that component,
    which runs [init] of lines 239-244 and through it [registerBroadcast];
    this reaction of the host is not part of the function, and the
    properties of the inbound handlers below that would depend on it are
    stated for records that write no [firebase-broadcast] data. *)
Definition setAttribute (el : option handle) (attribute : string) (v : value)
  : M unit := fun s =>
  match deref s el with
  | None => (Throw TypeError, s)
  | Some (h, e) =>
      let e' := match split attribute with
                | [c; p] => Element.setProperty e c p v
                | _ => Element.setAttribute e attribute v
                end in
      (Normal tt, setDocument (<[h := e']> (document s)) s)
  end.

(** ** The scene as the handlers use it *)

(** Whether [root] is a proper ancestor of [h]. *)
Fixpoint isDescendant (doc : list El) (root : handle) (fuel : nat) (h : handle)
  : bool :=
  match fuel with
  | O => false
  | S fuel' =>
      match doc !! h ≫= parentNode with
      | None => false
      | Some p => Nat.eqb p root || isDescendant doc root fuel' p
      end
  end.

Fixpoint firstWithId (doc : list El) (root : handle) (x : string)
  (all : list El) (h : handle) : option handle :=
  match doc with
  | [] => None
  | e :: doc' =>
      if String.eqb (toString (Element.getAttribute e "id")) x
         && bool_decide (is_Some (attrs e !! "id"))
         && isDescendant all root (length all) h
      then Some h
      else firstWithId doc' root x all (S h)
  end.

(** [sceneEl.querySelector('#' + x)]. *)
Definition querySelector (s : System) (selector : string) : option handle :=
  match selector with
  | String "#" x => firstWithId (document s) (sceneEl s) x (document s) 0
  | _ => None
  end.

(** [parentEl.appendChild(entity)]; an element cannot be appended to itself. *)
Definition appendChild (parentEl entity : handle) : M unit := fun s =>
  if Nat.eqb parentEl entity then (Throw HierarchyRequestError, s)
  else match document s !! entity with
       | None => (Throw TypeError, s)
       | Some e =>
           (Normal tt,
            setDocument (<[entity := Element.setParent e (Some parentEl)]>
                           (document s)) s)
       end.

(** ** The system (lines 14-210) *)

(** The configuration after [styleParser.parse]; an empty channel and a zero
    interval are the falsy values the code replaces by its defaults. *)
Record Config : Type := mkConfig {
  cfg_channel : string;
  cfg_interval : Z
}.

Definition orElse (a b : string) : string :=
  if String.eqb a "" then b else a.

(** [init]: [scene] and [doc] are the scene the system is attached to, [uuid]
    the result of [uuid.v4()], [channelQueryParam] the query parameter
    (empty when absent) and [config] the parsed configuration, [None] when
    there is none. *)
Definition init (scene : handle) (doc : list El) (uuid : string)
  (channelQueryParam : string) (config : option Config) : System :=
  let s0 := {| sceneEl := scene; clientId := uuid; firebase := false;
               database := None; interval := None; time := None;
               entities := ∅; broadcastingEntities := ∅; document := doc;
               pushed := 0; store := [] |} in
  match config with
  | None => s0
  | Some c =>
      {| sceneEl := scene; clientId := uuid; firebase := true;
         database :=
           Some (orElse channelQueryParam (orElse (cfg_channel c) "default"));
         interval :=
           Some (if (cfg_interval c =? 0)%Z then 10%Z else cfg_interval c);
         time := None;
         entities := ∅; broadcastingEntities := ∅; document := doc;
         pushed := 0;
         store := [Subscribe "value"; Subscribe "child_added";
                   Subscribe "child_changed"; Subscribe "child_removed"] |}
  end.

Definition isTrue (v : value) : bool :=
  match v with VBool true => true | _ => false end.

(** The callback [setComponent] of [handleEntityAdded] (lines 91-95). *)
Definition setComponentAdded (entity : option handle) (data : object)
  (componentName : string) : M unit :=
  if String.eqb componentName "firebase-broadcast"
     || String.eqb componentName "parentId"
  then ret tt
  else setAttribute entity componentName (Obj.read componentName data).

Definition handleEntityAdded (id : string) (data : object) : M unit := fun s =>
  if known s id then (Normal tt, s)
  else
    match member (Obj.read "firebase-broadcast" data) "shared" with
    | Throw e => (Throw e, s)
    | Normal shared =>
        let created := negb (isTrue shared && truthy (Obj.read "id" data)) in
        let fresh := length (document s) in
        let entity :=
          if created then Some fresh
          else querySelector s ("#" ++ toString (Obj.read "id" data)) in
        let s1 := if created then setDocument (document s ++ [newEl]) s else s in
        let s2 := setEntities (<[id := entity]> (entities s1)) s1 in
        (let* _ := forEach (setComponentAdded entity data) (Obj.keys data) in
         fun s3 =>
           let parentEl :=
             default (sceneEl s3)
               (replica s3 (toString (Obj.read "parentId" data))) in
           if created then appendChild parentEl fresh s3 else (Normal tt, s3)) s2
    end.

(** The snapshot maps each remote identifier to its record. *)
Fixpoint recordOf (entityId : string) (data : list (string * object)) : object :=
  match data with
  | [] => []
  | (k, r) :: data' => if String.eqb k entityId then r else recordOf entityId data'
  end.

Definition handleInitialSync (data : list (string * object)) : M unit := fun s =>
  let broadcasting := broadcastingEntities s in
  forEach (fun entityId =>
             if bool_decide (is_Some (broadcasting !! entityId)) then ret tt
             else handleEntityAdded entityId (recordOf entityId data))
    (remove_dups (data.*1)) s.

(** The callback [setComponent] of [handleEntityChanged] (lines 111-114). *)
Definition setComponentChanged (entity : option handle) (components : object)
  (componentName : string) : M unit :=
  if String.eqb componentName "parentId" then ret tt
  else setAttribute entity componentName (Obj.read componentName components).

Definition handleEntityChanged (id : string) (components : object) : M unit :=
  fun s =>
  if bool_decide (is_Some (broadcastingEntities s !! id)) then (Normal tt, s)
  else
    let entity := replica s id in
    forEach (setComponentChanged entity components) (Obj.keys components) s.

Definition handleEntityRemoved (id : string) : M unit := fun s =>
  match replica s id with
  | None => (Normal tt, s)
  | Some h =>
      match document s !! h with
      | None => (Throw TypeError, s)
      | Some e =>
          match parentNode e with
          | None => (Throw TypeError, s)
          | Some _ =>
              (Normal tt,
               setEntities (delete id (entities s))
                 (setDocument (<[h := Element.setParent e None]> (document s)) s))
          end
      end
  end.

Definition registerBroadcast (el : handle) : M unit := fun s =>
  match document s !! el with
  | None => (Throw TypeError, s)
  | Some e =>
      let broadcastData := computedBroadcast e in
      let id := Element.getAttribute e "id" in
      let s1 :=
        setBroadcastingEntities
          (<[toString id := el]> (broadcastingEntities s)) s in
      match broadcastData with
      | None => (Throw TypeError, s1)          (* broadcastData.shared *)
      | Some _ =>
          match database s1 with
          | None => (Throw TypeError, s1)      (* database.child(...) *)
          | Some _ =>
              (* a query has no [owner] property: line 140 never returns *)
              let id' := pushKey (pushed s1) in
              let e' := Element.setProperty e "firebase-broadcast" "id" (VStr id') in
              (Normal tt,
               issue (OnDisconnectRemove ("entities/" ++ id'))
                 (setPushed (S (pushed s1))
                    (setDocument (<[el := e']> (document s1)) s1)))
          end
      end
  end.

(** The callback [getData] of the tick (lines 202-204), folded over the
    component list: [data[componentName] = getComputedAttribute(el, ...)]. *)
Fixpoint getData (e : El) (components : list string) (data : object)
  : completion object :=
  match components with
  | [] => Normal data
  | componentName :: rest =>
      match getComputedAttribute e componentName with
      | Throw x => Throw x
      | Normal v => getData e rest (Obj.set componentName v data)
      end
  end.

(** Lines 173-183 of the callback [broadcastEntity]: the head of the record
    and the ownership claim.  The result is the element after the claim, the
    owner the rest of the callback sees in [broadcastData], and the record. *)
Definition claimOwner (client : string) (broadcastData : BroadcastData) (e : El)
  : El * string * object :=
  let shared := bd_shared broadcastData in
  let claim := shared && String.eqb (bd_owner broadcastData) "" in
  let meta :=
    if claim then [("shared", VBool shared); ("owner", VStr client)]
    else [("shared", VBool shared)] in
  (if claim
   then Element.setProperty e "firebase-broadcast" "owner" (VStr client)
   else e,
   if claim then client else bd_owner broadcastData,
   [("id", Element.getAttribute e "id"); ("firebase-broadcast", VObj meta)]).

(** Lines 189-192: the components sent once.  The list [componentsOnce] is
    an array, which is truthy even when empty. *)
Definition addOnce (broadcastData : BroadcastData) (e : El) : El * list string :=
  if firebaseBroadcastOnce e then (e, bd_components broadcastData)
  else (Element.setOnce e true,
        (bd_components broadcastData ++ bd_componentsOnce broadcastData)%list).

(** Lines 195-199: the link to the parent.  [Normal None] is the return of
    line 197. *)
Definition linkParent (scene : handle) (doc : list El) (e : El) (data : object)
  : completion (option object) :=
  match parentNode e with
  | None => Normal (Some data)
  | Some p =>
      if Nat.eqb p scene then Normal (Some data)
      else
        match doc !! p with
        | None => Throw TypeError
        | Some pe =>
            let parentBroadcastData :=
              Element.getAttribute pe "firebase-broadcast" in
            if truthy parentBroadcastData
            then match member parentBroadcastData "id" with
                 | Normal pid => Normal (Some (Obj.set "parentId" pid data))
                 | Throw x => Throw x
                 end
            else Normal None
        end
  end.

(** [database.child(path).update(data)] (line 207).  The store checks the
    record before it sends anything and raises when a value of the record
    is [undefined]; the other checks of the store (characters of keys and
    paths) are not modelled. *)
Definition update (path : string) (data : object) : M unit := fun s =>
  if existsb (fun p => hasUndefined (snd p)) data then (Throw StoreError, s)
  else (Normal tt, issue (Update path data) s).

(** The callback [broadcastEntity] of the tick (lines 166-208).  The first
    four arguments are the variables the closure captures at lines 157-160. *)
Definition broadcastEntity (broadcasting : gmap string handle)
  (client : string) (db : option string) (scene : handle) (id : string)
  : M unit := fun s =>
  match deref s (broadcasting !! id) with
  | None => (Throw TypeError, s)
  | Some (el, e) =>
      match computedBroadcast e with
      | None => (Throw TypeError, s)            (* broadcastData.components *)
      | Some broadcastData =>
          let '(e1, owner, data) := claimOwner client broadcastData e in
          let s1 := setDocument (<[el := e1]> (document s)) s in
          (* line 186 *)
          if bd_shared broadcastData && negb (String.eqb owner client)
          then (Normal tt, s1)
          else
            let '(e2, components) := addOnce broadcastData e1 in
            let s2 := setDocument (<[el := e2]> (document s1)) s1 in
            match linkParent scene (document s2) e2 data with
            | Throw x => (Throw x, s2)
            | Normal None => (Normal tt, s2)     (* wait for the parent *)
            | Normal (Some data1) =>
                match getData e2 components data1 with
                | Throw x => (Throw x, s2)
                | Normal data2 =>
                    match db with
                    | None => (Throw TypeError, s2)
                    | Some _ => update ("entities/" ++ id) data2 s2
                    end
                end
            end
      end
  end.

(** The interval test of line 163; a comparison with an undefined operand is
    false. *)
Definition tooEarly (s : System) (t : Z) : bool :=
  match time s, interval s with
  | Some t0, Some i => (t - t0 <? i)%Z
  | _, _ => false
  end.

(** Whether the call [tick(t)] runs its broadcast pass. *)
Definition passes (s : System) (t : Z) : bool :=
  firebase s && negb (tooEarly s t).

Definition tick (t : Z) : M unit := fun s =>
  if negb (firebase s) then (Normal tt, s)
  else if tooEarly s t then (Normal tt, s)
  else
    forEach
      (broadcastEntity (broadcastingEntities s) (clientId s) (database s)
         (sceneEl s))
      (map_to_list (broadcastingEntities s)).*1
      (setTime (Some t) s).

(** ** The [firebase-broadcast] component (lines 230-245) *)

(** The [init] of the component on the element [el]: [this.data] is the
    computed data of the component, [system] the firebase system. *)
Definition broadcastInit (el : handle) : M unit := fun s =>
  match deref s (Some el) with
  | None => (Throw TypeError, s)
  | Some (_, e) =>
      match computedBroadcast e with
      | None => (Throw TypeError, s)
      | Some data =>
          if Nat.eqb (length (bd_components data)) 0 then (Normal tt, s)
          else registerBroadcast el s
      end
  end.

(** ** Runs and observations *)

(** The state after the calls [tick(t)] for [t] in [ts], in order.  An
    exception raised by a pass reaches the caller of [tick]; the system
    object keeps the state it had then. *)
Fixpoint ticks (ts : list Z) (s : System) : System :=
  match ts with
  | [] => s
  | t :: ts' => ticks ts' (snd (tick t s))
  end.

(** The timestamps of [ts] at which the broadcast pass ran. *)
Fixpoint executed (ts : list Z) (s : System) : list Z :=
  match ts with
  | [] => []
  | t :: ts' =>
      (if passes s t then [t] else []) ++ executed ts' (snd (tick t s))
  end.

(** The store operations issued between two states of one run. *)
Definition issued (s s' : System) : list StoreOp :=
  drop (length (store s)) (store s').

(** The records sent by [update] to [entities/<id>]. *)
Definition updatesAt (id : string) (ops : list StoreOp) : list object :=
  omap (fun op => match op with
                  | Update path data =>
                      if String.eqb path ("entities/" ++ id) then Some data
                      else None
                  | _ => None
                  end) ops.

(** [data['firebase-broadcast'].owner] of a record. *)
Definition recordOwner (data : object) : option value :=
  match Obj.get "firebase-broadcast" data with
  | Some (VObj meta) => Obj.get "owner" meta
  | _ => None
  end.

(** The broadcast data of the element behind a handle. *)
Definition broadcastOf (s : System) (h : handle) : option BroadcastData :=
  document s !! h ≫= computedBroadcast.

Definition ownerOf (s : System) (h : handle) : option string :=
  bd_owner <$> broadcastOf s h.

(** The remote id an element has been given by [registerBroadcast], if any. *)
Definition resolvedId (e : El) : option string :=
  match computedBroadcast e with
  | Some b => if String.eqb (bd_id b) "" then None else Some (bd_id b)
  | None => None
  end.

(** What a broadcast pass leaves alone: everything but the scene and the
    log of store operations. *)
Definition frame (s s' : System) : Prop :=
  sceneEl s' = sceneEl s /\ clientId s' = clientId s /\
  firebase s' = firebase s /\ database s' = database s /\
  interval s' = interval s /\ time s' = time s /\
  entities s' = entities s /\
  broadcastingEntities s' = broadcastingEntities s /\
  pushed s' = pushed s.

(** An attribute of the element behind a handle, as written. *)
Definition attributeOf (s : System) (h : handle) (name : string) : option value :=
  document s !! h ≫= fun e => attrs e !! name.

(** The field names of a record that are reserved on the wire. *)
Definition reserved (componentName : string) : bool :=
  String.eqb componentName "firebase-broadcast"
  || String.eqb componentName "parentId".

(** What the event handlers leave alone apart from the scene: the tables
    grow only by the assignment of line 88, the heap never shrinks. *)
Definition sameTables (s s' : System) : Prop :=
  entities s' = entities s /\
  broadcastingEntities s' = broadcastingEntities s /\
  length (document s') = length (document s).

(** How a broadcast pass of the client [client] may change one element: it
    may claim an unowned shared element and raise the once-flag, nothing
    else. *)
Definition dataEvolves (client : string) (b b' : BroadcastData) : Prop :=
  bd_id b' = bd_id b /\
  bd_components b' = bd_components b /\
  bd_componentsOnce b' = bd_componentsOnce b /\
  bd_shared b' = bd_shared b /\
  (bd_owner b' = bd_owner b \/
   bd_shared b = true /\ bd_owner b = "" /\ bd_owner b' = client).

Definition evolves (client : string) (e e' : El) : Prop :=
  parentNode e' = parentNode e /\
  (firebaseBroadcastOnce e = true -> firebaseBroadcastOnce e' = true) /\
  truthy (Element.getAttribute e' "firebase-broadcast")
  = truthy (Element.getAttribute e "firebase-broadcast") /\
  member (Element.getAttribute e' "firebase-broadcast") "id"
  = member (Element.getAttribute e "firebase-broadcast") "id" /\
  match computedBroadcast e, computedBroadcast e' with
  | None, None => True
  | Some b, Some b' => dataEvolves client b b'
  | _, _ => False
  end.

Definition docEvolves (client : string) (s s' : System) : Prop :=
  forall h e, document s !! h = Some e ->
              exists e', document s' !! h = Some e' /\ evolves client e e'.

(** The log of store operations only grows. *)
Definition grows (s s' : System) : Prop :=
  exists ops, store s' = (store s ++ ops)%list.

(** What one call of the tick callback for the key [id] may do: touch the
    element of its own key as [evolves] allows, and send updates to the path
    of its own key only. *)
Definition step (broadcasting : gmap string handle) (client : string)
  (id : string) (s s' : System) : Prop :=
  docEvolves client s s' /\ grows s s' /\
  (forall h, broadcasting !! id ≠ Some h -> document s' !! h = document s !! h) /\
  (forall id', id' ≠ id -> updatesAt id' (issued s s') = []).

(** The callback of [handleInitialSync] (lines 66-69), with the Broadcast
    Table it captures at line 65. *)
Definition visit (broadcasting : gmap string handle)
  (data : list (string * object)) (entityId : string) : M unit :=
  if bool_decide (is_Some (broadcasting !! entityId)) then ret tt
  else handleEntityAdded entityId (recordOf entityId data).

(** What an inbound event leaves alone: the log of store operations, the
    key supply, the Broadcast Table and the settings of the system. *)
Definition inbound (s s' : System) : Prop :=
  store s' = store s /\ pushed s' = pushed s /\
  broadcastingEntities s' = broadcastingEntities s /\
  time s' = time s /\ interval s' = interval s /\
  clientId s' = clientId s /\ firebase s' = firebase s /\
  database s' = database s /\ sceneEl s' = sceneEl s.

(** The component an attribute name addresses: the part before the [|] of
    a name [component|property], the whole name otherwise. *)
Definition componentOf (attribute : string) : string :=
  match split attribute with
  | [c; _] => c
  | _ => attribute
  end.

(** Every remote id carried by an element of the scene was handed out by
    [push()]. *)
Definition idsPushed (s : System) : Prop :=
  forall h b, broadcastOf s h = Some b ->
              bd_id b = "" \/ exists n, n < pushed s /\ bd_id b = pushKey n.

(** A record that makes the "added" handler write no [firebase-broadcast]
    data: none of the fields the handler applies addresses that component. *)
Definition quiet (data : object) : bool :=
  forallb (fun k => reserved k || negb (String.eqb (componentOf k) "firebase-broadcast"))
          (Obj.keys data).

(** An attribute name without [|]: the accessors take it whole. *)
Definition plain (attribute : string) : Prop := split attribute = [attribute].

(** What a broadcast pass keeps of one element besides what [evolves]
    says: every attribute but [firebase-broadcast]. *)
Definition sameOthers (e e' : El) : Prop :=
  parentNode e' = parentNode e /\
  forall name, name ≠ "firebase-broadcast" -> attrs e' !! name = attrs e !! name.

(** ** Concrete scenes *)

Module Scene.

Definition room : Config := {| cfg_channel := "room1"; cfg_interval := 20 |}.

(** Handle 0: the scene root. *)
Definition root : El := newEl.

(** A shared box under the root, with a component sent once. *)
Definition box : El :=
  {| attrs :=
       {[ "id" := VStr "box1";
          "firebase-broadcast" :=
            VObj [("shared", VBool true);
                  ("components", VArr [VStr "position"]);
                  ("componentsOnce", VArr [VStr "color"])];
          "position" := VStr "1 2 3";
          "color" := VStr "red" ]};
     parentNode := Some 0;
     firebaseBroadcastOnce := false |}.

(** A plain group under the root, without broadcast component. *)
Definition group : El :=
  {| attrs := {[ "id" := VStr "group1" ]};
     parentNode := Some 0;
     firebaseBroadcastOnce := false |}.

(** A group whose broadcast component lists no component: its [init]
    (line 243) never registers it, so it never gets a remote id. *)
Definition silentGroup : El :=
  Element.setAttribute group "firebase-broadcast"
    (VObj [("components", VArr [])]).

(** A ball inside the group (handle 1), with a component sent once. *)
Definition ball : El :=
  {| attrs :=
       {[ "id" := VStr "ball1";
          "firebase-broadcast" :=
            VObj [("components", VArr [VStr "position"]);
                  ("componentsOnce", VArr [VStr "color"])];
          "position" := VStr "0 1 0";
          "color" := VStr "blue" ]};
     parentNode := Some 1;
     firebaseBroadcastOnce := false |}.

(** The engine started with a configuration, and without. *)
Definition live (doc : list El) : System := init 0 doc "client-a" "" (Some room).
Definition inert (doc : list El) : System := init 0 doc "client-a" "" None.

(** The box registered on a live engine. *)
Definition withBox : System := snd (registerBroadcast 1 (live [root; box])).

(** A replica of a remote entity [e1] on a live engine. *)
Definition remoteRecord : object :=
  [("position", VStr "1 2 3");
   ("firebase-broadcast", VObj [("shared", VBool false)])].
Definition withReplica : System :=
  snd (handleEntityAdded "e1" remoteRecord (live [root])).


(** The ball registered while its group has no broadcast component. *)
Definition withBall : System :=
  snd (registerBroadcast 2 (live [root; group; ball])).


(** The ball registered inside the group that never registers. *)
Definition withSilentGroup : System :=
  snd (registerBroadcast 2 (live [root; silentGroup; ball])).

(** The host attaches a broadcast component to an element; the [init] of
    the component (line 243) registers it. *)
Definition attach (h : handle) (s : System) : System :=
  match document s !! h with
  | None => s
  | Some e =>
      snd (registerBroadcast h
             (setDocument
                (<[h := Element.setAttribute e "firebase-broadcast" (VObj [])]>
                   (document s)) s))
  end.

(** A snapshot of two remote entities, the second under the first. *)
Definition snapshot : list (string * object) :=
  [("e1", remoteRecord);
   ("e2", [("firebase-broadcast", VObj [("shared", VBool false)]);
           ("parentId", VStr "e1");
           ("rotation", VStr "0 90 0")])].

(** A record for a shared entity with the stable id [box1]. *)
Definition sharedRecord : object :=
  [("id", VStr "box1");
   ("firebase-broadcast", VObj [("shared", VBool true); ("owner", VStr "client-b")]);
   ("position", VStr "7 8 9")].

(** The box after its first broadcast: registered, claimed, flag raised. *)
Definition sentBox : El :=
  Element.setOnce
    (Element.setProperty
       (Element.setProperty box "firebase-broadcast" "id" (VStr "-K0"))
       "firebase-broadcast" "owner" (VStr "client-a")) true.
Definition afterFirstTick : System := snd (tick 0 withBox).

(** A lamp that lists a property of a component it does not have. *)
Definition lamp : El :=
  {| attrs :=
       {[ "id" := VStr "lamp1";
          "firebase-broadcast" :=
            VObj [("components", VArr [VStr "position"; VStr "light|color"])];
          "position" := VStr "0 2 0" ]};
     parentNode := Some 0;
     firebaseBroadcastOnce := false |}.
Definition withLamp : System := snd (registerBroadcast 1 (live [root; lamp])).

End Scene.

(** * Properties *)

(** ** Records *)

Lemma get_set_eq (k : string) (v : value) (o : object) :
  Obj.get k (Obj.set k v o) = Some v.
Proof.
  induction o as [|[k' v'] o IH]; simpl.
  - by rewrite String.eqb_refl.
  - destruct (String.eqb k' k) eqn:E; simpl.
    + by rewrite String.eqb_refl.
    + by rewrite E.
Qed.

Lemma get_set_ne (k k' : string) (v : value) (o : object) :
  k ≠ k' -> Obj.get k' (Obj.set k v o) = Obj.get k' o.
Proof.
  intros Hne. induction o as [|[k0 v0] o IH]; simpl.
  - apply String.eqb_neq in Hne. by rewrite Hne.
  - destruct (String.eqb k0 k) eqn:E; simpl.
    + apply String.eqb_eq in E as ->.
      apply String.eqb_neq in Hne. by rewrite Hne.
    + destruct (String.eqb k0 k'); [done | apply IH].
Qed.

Lemma get_Some_keys (k : string) (v : value) (o : object) :
  Obj.get k o = Some v -> k ∈ Obj.keys o.
Proof.
  unfold Obj.keys. rewrite elem_of_remove_dups.
  induction o as [|[k' v'] o IH]; simpl; [done |].
  destruct (String.eqb k' k) eqn:E.
  - apply String.eqb_eq in E as ->. intros _. left.
  - intros H. right. by apply IH.
Qed.

Lemma truthy_read_keys (k : string) (o : object) :
  truthy (Obj.read k o) = true -> k ∈ Obj.keys o.
Proof.
  unfold Obj.read. destruct (Obj.get k o) as [v|] eqn:E; [|done].
  intros _. by eapply get_Some_keys.
Qed.

(** ** Loops *)

Lemma forEach_app {A} (f : A -> M unit) (l1 l2 : list A) (s : System) :
  forEach f (l1 ++ l2) s =
  match forEach f l1 s with
  | (Normal _, s') => forEach f l2 s'
  | (Throw e, s') => (Throw e, s')
  end.
Proof.
  revert s. induction l1 as [|x l1 IH]; intros s; simpl; [done |].
  unfold bind. destruct (f x s) as [[[]|e] s']; [apply IH | done].
Qed.

(** A property of states that every call of the callback keeps is kept by
    the loop, however it ends. *)
Lemma forEach_invariant {A} (P : System -> Prop) (f : A -> M unit) (l : list A) :
  (forall x s, x ∈ l -> P s -> P (snd (f x s))) ->
  forall s, P s -> P (snd (forEach f l s)).
Proof.
  induction l as [|x l IH]; intros Hf s Hs; simpl; [done |].
  unfold bind.
  pose proof (Hf x s ltac:(left) Hs) as Hx.
  destruct (f x s) as [[[]|e] s']; simpl in *; [|done].
  apply IH; [|done]. intros y s0 Hy. apply Hf. by right.
Qed.

(** ** Remote changes to entities this client does not replicate *)

(** C2. A "changed" event whose identifier is in the Broadcast Table returns
    at line 108: the call completes normally and the whole state of the
    system, scene included, is what it was. *)
Theorem handleEntityChanged_broadcasting_noop
  (s : System) (id : string) (components : object) :
  is_Some (broadcastingEntities s !! id) ->
  handleEntityChanged id components s = (Normal tt, s).
Proof.
  intros Hin. unfold handleEntityChanged.
  by rewrite bool_decide_eq_true_2.
Qed.

Lemma handleEntityChanged_broadcasting_noop_witness :
  handleEntityChanged "box1" [("position", VStr "9 9 9")] Scene.withBox
  = (Normal tt, Scene.withBox).
Proof.
  apply handleEntityChanged_broadcasting_noop.
  exists 1. vm_compute. reflexivity.
Defined.

(** With a null or undefined entity, the first field that is not [parentId]
    raises, and nothing was written before it. *)
Lemma forEach_setComponentChanged_null (components : object) (l : list string)
  (s : System) :
  (exists k, k ∈ l /\ k ≠ "parentId") ->
  forEach (setComponentChanged None components) l s = (Throw TypeError, s).
Proof.
  induction l as [|k l IH]; intros (k0 & Hin & Hne).
  - by apply elem_of_nil in Hin.
  - simpl. unfold bind, setComponentChanged.
    destruct (String.eqb k "parentId") eqn:E; [|done].
    apply String.eqb_eq in E as ->. simpl.
    apply IH. exists k0. split; [|done].
    apply elem_of_cons in Hin as [->|Hin]; done.
Qed.

(** The "changed" handler has no test on the Replica Table: for an
    identifier in neither table, any record with a field other than
    [parentId] makes it raise. *)
Lemma handleEntityChanged_unknown (s : System) (id k : string) (components : object) :
  known s id = false ->
  k ∈ Obj.keys components -> k ≠ "parentId" ->
  handleEntityChanged id components s = (Throw TypeError, s).
Proof.
  unfold known. intros Hk Hin Hne.
  apply orb_false_iff in Hk as [Hr Hb].
  unfold handleEntityChanged. rewrite Hb.
  apply bool_decide_eq_false in Hr.
  destruct (replica s id) as [h|] eqn:E; [by destruct Hr |].
  apply forEach_setComponentChanged_null. eauto.
Qed.

(** The sibling handler does test: removal of an unknown identifier is a
    no-op (line 122). *)
Lemma handleEntityRemoved_unknown (s : System) (id : string) :
  replica s id = None -> handleEntityRemoved id s = (Normal tt, s).
Proof. intros H. unfold handleEntityRemoved. by rewrite H. Qed.

(** C7. On a live engine with empty tables, a "changed" event for the
    identifier [e9] carrying a position raises a TypeError: line 113 calls
    the accessor on the undefined entity read at line 110. *)
Theorem handleEntityChanged_unknown_raises :
  known (Scene.live [Scene.root]) "e9" = false /\
  handleEntityChanged "e9" [("position", VStr "1 2 3")] (Scene.live [Scene.root])
  = (Throw TypeError, Scene.live [Scene.root]).
Proof. split; vm_compute; reflexivity. Qed.

(** ** An engine without configuration *)

Lemma init_no_config (scene : handle) (doc : list El) (uuid q : string) :
  firebase (init scene doc uuid q None) = false /\
  database (init scene doc uuid q None) = None /\
  store (init scene doc uuid q None) = [].
Proof. done. Qed.

Lemma tick_inert (s : System) (t : Z) :
  firebase s = false -> tick t s = (Normal tt, s).
Proof. intros H. unfold tick. by rewrite H. Qed.

(** Registration has no such guard: without a database reference it always
    raises, after the assignment of line 135. *)
Lemma registerBroadcast_inert (s : System) (el : handle) :
  database s = None -> fst (registerBroadcast el s) = Throw TypeError.
Proof.
  intros H. unfold registerBroadcast.
  destruct (document s !! el) as [e|]; [|done].
  destruct (computedBroadcast e); [|done].
  simpl. by rewrite H.
Qed.

(** C9. On the engine left inert by [init], registering the box raises a
    TypeError (line 144 dereferences the missing database) and has already
    entered the box in the Broadcast Table (line 135); [tick] is a no-op. *)
Theorem registerBroadcast_inert_raises :
  let s := Scene.inert [Scene.root; Scene.box] in
  firebase s = false /\
  tick 100 s = (Normal tt, s) /\
  broadcastingEntities s !! "box1" = None /\
  fst (registerBroadcast 1 s) = Throw TypeError /\
  broadcastingEntities (snd (registerBroadcast 1 s)) !! "box1" = Some 1.
Proof. repeat split; vm_compute; reflexivity. Qed.

(** ** Remote additions *)

(** C10. For an identifier that is not yet known, the handler reads
    [data['firebase-broadcast'].shared] (line 82) before anything else: if
    that read raises, the handler raises with the state untouched, and it
    does raise when the record has no [firebase-broadcast] field. *)
Theorem handleEntityAdded_needs_broadcastMeta
  (s : System) (id : string) (data : object) :
  known s id = false ->
  (forall e, member (Obj.read "firebase-broadcast" data) "shared" = Throw e ->
             handleEntityAdded id data s = (Throw e, s)) /\
  (Obj.get "firebase-broadcast" data = None ->
   handleEntityAdded id data s = (Throw TypeError, s)).
Proof.
  intros Hk. unfold handleEntityAdded. rewrite Hk. split.
  - intros e He. by rewrite He.
  - intros Hnone. unfold Obj.read. by rewrite Hnone.
Qed.

Lemma handleEntityAdded_needs_broadcastMeta_witness :
  handleEntityAdded "e1" [("position", VStr "1 2 3")] (Scene.live [Scene.root])
  = (Throw TypeError, Scene.live [Scene.root]).
Proof.
  apply (handleEntityAdded_needs_broadcastMeta (Scene.live [Scene.root]) "e1"
           [("position", VStr "1 2 3")]).
  - vm_compute. reflexivity.
  - reflexivity.
Defined.

(** ** The interval gate of the tick *)

Lemma frame_refl (s : System) : frame s s.
Proof. by repeat split. Qed.

Lemma frame_trans (s1 s2 s3 : System) : frame s1 s2 -> frame s2 s3 -> frame s1 s3.
Proof.
  unfold frame. intros H1 H2.
  destruct H1 as (?&?&?&?&?&?&?&?&?), H2 as (?&?&?&?&?&?&?&?&?).
  repeat split; congruence.
Qed.

Lemma broadcastEntity_frame (broadcasting : gmap string handle)
  (client : string) (db : option string) (scene : handle) (id : string)
  (s : System) :
  frame s (snd (broadcastEntity broadcasting client db scene id s)).
Proof.
  unfold broadcastEntity, update.
  repeat case_match; simpl; by repeat split.
Qed.

Lemma pass_frame (broadcasting : gmap string handle)
  (client : string) (db : option string) (scene : handle) (l : list string)
  (s : System) :
  frame s (snd (forEach (broadcastEntity broadcasting client db scene) l s)).
Proof.
  apply (forEach_invariant (frame s)); [|apply frame_refl].
  intros id s' _ Hs. eapply frame_trans; [done | apply broadcastEntity_frame].
Qed.

Lemma passes_false_tick (s : System) (t : Z) :
  passes s t = false -> tick t s = (Normal tt, s).
Proof.
  unfold passes, tick. destruct (firebase s); simpl; [|done].
  by intros ->%negb_false_iff.
Qed.

Lemma passes_true_tick (s : System) (t : Z) :
  passes s t = true ->
  tick t s =
  forEach (broadcastEntity (broadcastingEntities s) (clientId s) (database s)
             (sceneEl s))
    (map_to_list (broadcastingEntities s)).*1 (setTime (Some t) s).
Proof.
  unfold passes, tick. destruct (firebase s); simpl; [|done].
  by intros ->%negb_true_iff.
Qed.

Lemma tick_interval (s : System) (t : Z) :
  interval (snd (tick t s)) = interval s.
Proof.
  destruct (passes s t) eqn:E.
  - rewrite passes_true_tick by done.
    pose proof (pass_frame (broadcastingEntities s) (clientId s) (database s)
                  (sceneEl s) (map_to_list (broadcastingEntities s)).*1
                  (setTime (Some t) s)) as (_&_&_&_&Hi&_).
    by rewrite Hi.
  - by rewrite passes_false_tick.
Qed.

Lemma tick_time (s : System) (t : Z) :
  time (snd (tick t s)) = if passes s t then Some t else time s.
Proof.
  destruct (passes s t) eqn:E.
  - rewrite passes_true_tick by done.
    pose proof (pass_frame (broadcastingEntities s) (clientId s) (database s)
                  (sceneEl s) (map_to_list (broadcastingEntities s)).*1
                  (setTime (Some t) s)) as (_&_&_&_&_&Ht&_).
    by rewrite Ht.
  - by rewrite passes_false_tick.
Qed.

(** The gate lets a tick through only when the interval has elapsed since
    the recorded time. *)
Lemma passes_elapsed (s : System) (t t0 i : Z) :
  passes s t = true -> time s = Some t0 -> interval s = Some i ->
  (i <= t - t0)%Z.
Proof.
  unfold passes, tooEarly. intros H Ht Hi. rewrite Ht, Hi in H.
  apply andb_true_iff in H as [_ H]. apply negb_true_iff in H. lia.
Qed.

Lemma executed_subset (ts : list Z) (s : System) (e : Z) :
  e ∈ executed ts s -> e ∈ ts.
Proof.
  revert s. induction ts as [|t ts IH]; intros s; simpl; [done |].
  rewrite elem_of_app. intros [H|H].
  - destruct (passes s t); [|by apply elem_of_nil in H].
    apply list_elem_of_singleton in H as ->. left.
  - right. by eapply IH.
Qed.

(** Every pass of a monotonic run comes at least one interval after the
    time recorded when the run starts. *)
Lemma executed_after_recorded (ts : list Z) (s : System) (i t0 e : Z) :
  interval s = Some i -> time s = Some t0 ->
  StronglySorted Z.le ts ->
  e ∈ executed ts s -> (i <= e - t0)%Z.
Proof.
  revert s t0. induction ts as [|t ts IH]; intros s t0 Hi Ht Hs; simpl.
  - by intros ?%elem_of_nil.
  - apply StronglySorted_inv in Hs as [Hs Hle].
    pose proof (tick_time s t) as Htime.
    pose proof (tick_interval s t) as Hint.
    destruct (passes s t) eqn:E; simpl.
    + intros [->|He]%elem_of_cons.
      * by eapply passes_elapsed.
      * pose proof (passes_elapsed s t t0 i E Ht Hi).
        apply executed_subset in He.
        rewrite Forall_forall in Hle. apply Hle in He. lia.
    + rewrite passes_false_tick by done. simpl. by apply IH.
Qed.

(** C8. The interval gate.  A tick that the gate stops is a complete no-op
    (the recorded time included); a tick runs its pass only when the
    interval has elapsed since the recorded time, which it then sets to its
    own timestamp; hence in a run with monotonic timestamps any two passes
    are at least one interval apart. *)
Theorem tick_rate_limited (s : System) (ts : list Z) :
  StronglySorted Z.le ts ->
  (forall t, passes s t = false -> tick t s = (Normal tt, s)) /\
  (forall t, passes s t = true ->
     time (snd (tick t s)) = Some t /\
     forall t0 i, time s = Some t0 -> interval s = Some i -> (i <= t - t0)%Z) /\
  (forall i pre a mid b post,
     interval s = Some i ->
     executed ts s = (pre ++ a :: mid ++ b :: post)%list -> (i <= b - a)%Z).
Proof.
  intros Hs. split; [|split].
  - intros t. apply passes_false_tick.
  - intros t Hp. split.
    + by rewrite tick_time, Hp.
    + intros t0 i. by apply passes_elapsed.
  - revert s Hs. induction ts as [|t ts IH]; intros s Hs i pre a mid b post Hi; simpl.
    + by destruct pre.
    + apply StronglySorted_inv in Hs as [Hs Hle].
      pose proof (tick_time s t) as Htime.
      pose proof (tick_interval s t) as Hint.
      destruct (passes s t) eqn:E; simpl.
      * destruct pre as [|x pre]; simpl; intros [= Hx Hrest].
        -- subst a.
           eapply (executed_after_recorded ts (snd (tick t s)));
             [by rewrite Hint | done | done |].
           rewrite Hrest. set_solver.
        -- eapply (IH (snd (tick t s))); [done | by rewrite Hint | done].
      * rewrite passes_false_tick by done. simpl. by apply IH.
Qed.

Lemma tick_rate_limited_witness :
  StronglySorted Z.le [0; 5; 20; 30; 45]%Z /\
  executed [0; 5; 20; 30; 45]%Z Scene.withBox = [0; 20; 45]%Z /\
  (20 <= 45 - 20)%Z.
Proof.
  assert (Hs : StronglySorted Z.le [0; 5; 20; 30; 45]%Z)
    by (repeat constructor; lia).
  split; [exact Hs |]. split; [vm_compute; reflexivity |].
  apply (proj2 (proj2 (tick_rate_limited Scene.withBox _ Hs))
           20%Z [0%Z] 20%Z [] 45%Z []); vm_compute; reflexivity.
Defined.

(** ** Reserved fields of inbound records *)

(** The "added" handler hands to the accessor exactly the fields that are
    not reserved, in the order of the record. *)
Lemma forEach_setComponentAdded_filter (entity : option handle) (data : object)
  (l : list string) (s : System) :
  forEach (setComponentAdded entity data) l s =
  forEach (fun k => setAttribute entity k (Obj.read k data))
    (filter (fun k => reserved k = false) l) s.
Proof.
  revert s. induction l as [|k l IH]; intros s; [done |].
  rewrite filter_cons. simpl. unfold bind at 1, setComponentAdded at 1.
  fold (reserved k). destruct (reserved k) eqn:E.
  - rewrite decide_False by done. simpl. apply IH.
  - rewrite decide_True by done. simpl. unfold bind.
    destruct (setAttribute entity k (Obj.read k data) s) as [[[]|e] s']; [apply IH | done].
Qed.

(** The "changed" handler leaves out [parentId] only. *)
Lemma forEach_setComponentChanged_filter (entity : option handle)
  (components : object) (l : list string) (s : System) :
  forEach (setComponentChanged entity components) l s =
  forEach (fun k => setAttribute entity k (Obj.read k components))
    (filter (fun k => k ≠ "parentId") l) s.
Proof.
  revert s. induction l as [|k l IH]; intros s; [done |].
  rewrite filter_cons. simpl. unfold bind at 1, setComponentChanged at 1.
  destruct (String.eqb k "parentId") eqn:E.
  - apply String.eqb_eq in E. rewrite decide_False by (by intros []). apply IH.
  - apply String.eqb_neq in E. rewrite decide_True by done. simpl. unfold bind.
    destruct (setAttribute entity k (Obj.read k components) s) as [[[]|e] s'];
      [apply IH | done].
Qed.

Lemma setComponentChanged_broadcastMeta (entity : option handle) (components : object) :
  setComponentChanged entity components "firebase-broadcast" =
  setAttribute entity "firebase-broadcast" (Obj.read "firebase-broadcast" components).
Proof. done. Qed.

(** C4. The replica [e1] was created from a record carrying
    [firebase-broadcast], which the "added" handler did not apply; a
    "changed" event with the same field then writes it on the entity as a
    component: line 112 strips [parentId] only. *)
Theorem handleEntityChanged_applies_broadcastMeta :
  let s := Scene.withReplica in
  let s' := snd (handleEntityChanged "e1" Scene.remoteRecord s) in
  replica s "e1" = Some 1 /\
  attributeOf s 1 "position" = Some (VStr "1 2 3") /\
  attributeOf s 1 "firebase-broadcast" = None /\
  fst (handleEntityChanged "e1" Scene.remoteRecord s) = Normal tt /\
  attributeOf s' 1 "firebase-broadcast" = Some (VObj [("shared", VBool false)]).
Proof. repeat split; vm_compute; reflexivity. Qed.

(** ** Idempotence of remote additions *)

Lemma sameTables_refl (s : System) : sameTables s s.
Proof. by repeat split. Qed.

Lemma sameTables_trans (s1 s2 s3 : System) :
  sameTables s1 s2 -> sameTables s2 s3 -> sameTables s1 s3.
Proof.
  unfold sameTables. intros (?&?&?) (?&?&?). repeat split; congruence.
Qed.

Lemma setAttribute_sameTables (el : option handle) (k : string) (v : value)
  (s : System) :
  sameTables s (snd (setAttribute el k v s)).
Proof.
  unfold setAttribute. destruct (deref s el) as [[h e]|]; simpl.
  - repeat split. simpl. apply length_insert.
  - apply sameTables_refl.
Qed.

Lemma setComponentAdded_sameTables (entity : option handle) (data : object)
  (k : string) (s : System) :
  sameTables s (snd (setComponentAdded entity data k s)).
Proof.
  unfold setComponentAdded. case_match.
  - apply sameTables_refl.
  - apply setAttribute_sameTables.
Qed.

Lemma appendChild_sameTables (p h : handle) (s : System) :
  sameTables s (snd (appendChild p h s)).
Proof.
  unfold appendChild. repeat case_match; simpl;
    try apply sameTables_refl.
  repeat split. simpl. apply length_insert.
Qed.

(** With a null entity the loop of line 91 raises at the first field that is
    not reserved. *)
Lemma forEach_setComponentAdded_null (data : object) (l : list string)
  (s : System) (k : string) :
  k ∈ l -> reserved k = false ->
  fst (forEach (setComponentAdded None data) l s) = Throw TypeError.
Proof.
  intros Hin Hk. induction l as [|k0 l IH]; [by apply elem_of_nil in Hin |].
  simpl. unfold bind, setComponentAdded at 1. fold (reserved k0).
  destruct (reserved k0) eqn:E; simpl.
  - apply IH. apply elem_of_cons in Hin as [->|Hin]; [congruence | done].
  - done.
Qed.

Lemma firstWithId_bound (doc all : list El) (root : handle) (x : string)
  (h0 h : handle) :
  firstWithId doc root x all h0 = Some h -> h0 <= h < h0 + length doc.
Proof.
  revert h0. induction doc as [|e doc IH]; intros h0; simpl; [done |].
  case_match.
  - intros [= ->]. lia.
  - intros Hf%IH. lia.
Qed.

Lemma querySelector_bound (s : System) (sel : string) (h : handle) :
  querySelector s sel = Some h -> h < length (document s).
Proof.
  unfold querySelector. repeat case_match; try done.
  intros Hf%firstWithId_bound. lia.
Qed.

(** What a delivery that completes for a new identifier leaves behind: one
    Replica Table entry for it, naming an element of the scene, and at most
    one element more than before. *)
Lemma handleEntityAdded_new (s s1 : System) (id : string) (data : object) :
  known s id = false ->
  handleEntityAdded id data s = (Normal tt, s1) ->
  exists h, entities s1 = <[id := Some h]> (entities s) /\
            broadcastingEntities s1 = broadcastingEntities s /\
            h < length (document s1) /\
            (length (document s1) = length (document s) \/
             h = length (document s) /\
             length (document s1) = S (length (document s))).
Proof.
  intros Hk. unfold handleEntityAdded. rewrite Hk.
  destruct (member (Obj.read "firebase-broadcast" data) "shared")
    as [shared|e]; [|done].
  cbv zeta.
  set (created := negb (isTrue shared && truthy (Obj.read "id" data))).
  set (entity := if created then Some (length (document s))
                 else querySelector s ("#" ++ toString (Obj.read "id" data))).
  set (s1' := if created then setDocument (document s ++ [newEl]) s else s).
  set (s2 := setEntities (<[id := entity]> (entities s1')) s1').
  unfold bind.
  pose proof (forEach_invariant (sameTables s2) (setComponentAdded entity data)
                (Obj.keys data)
                (fun k s' _ Hs' =>
                   sameTables_trans _ _ _ Hs'
                     (setComponentAdded_sameTables entity data k s'))
                s2 (sameTables_refl s2)) as Hloop.
  destruct (forEach (setComponentAdded entity data) (Obj.keys data) s2)
    as [[[]|e] s3] eqn:Hfe; [|done].
  simpl in Hloop. destruct Hloop as (He & Hb & Hlen).
  destruct created eqn:Hc.
  - intros Hap.
    pose proof (appendChild_sameTables
                  (default (sceneEl s3)
                     (replica s3 (toString (Obj.read "parentId" data))))
                  (length (document s)) s3) as (He' & Hb' & Hlen').
    rewrite Hap in He', Hb', Hlen'. simpl in He', Hb', Hlen'.
    exists (length (document s)).
    rewrite He', He, Hb', Hb, Hlen', Hlen. subst s2 s1' entity. simpl.
    rewrite length_app. simpl.
    repeat split; [lia | right; split; [done | lia]].
  - intros [= <-].
    subst created. apply negb_false_iff, andb_true_iff in Hc as [_ Hid].
    destruct entity as [h|] eqn:Hent.
    + exists h. rewrite He, Hb, Hlen. subst s2 s1'. simpl.
      repeat split; [|by left].
      subst entity. by apply querySelector_bound in Hent.
    + pose proof (forEach_setComponentAdded_null data (Obj.keys data) s2 "id"
                    (truthy_read_keys _ _ Hid) eq_refl) as Hthrow.
      by rewrite Hfe in Hthrow.
Qed.








(** ** What a broadcast pass does to the scene *)

Lemma evolves_refl (client : string) (e : El) : evolves client e e.
Proof.
  repeat split; try done.
  destruct (computedBroadcast e); [|done]. repeat split; by left.
Qed.

Lemma evolves_trans (client : string) (e1 e2 e3 : El) :
  evolves client e1 e2 -> evolves client e2 e3 -> evolves client e1 e3.
Proof.
  intros (Hp & Hf & Ht & Hm & Hb) (Hp' & Hf' & Ht' & Hm' & Hb').
  repeat split; try congruence; [tauto |].
  destruct (computedBroadcast e1) as [b1|], (computedBroadcast e2) as [b2|],
    (computedBroadcast e3) as [b3|]; try done.
  destruct Hb as (?&?&?&?&Ho), Hb' as (?&?&?&?&Ho').
  repeat split; try congruence.
  destruct Ho as [Ho|(?&?&?)], Ho' as [Ho'|(?&?&?)].
  - left. congruence.
  - right. repeat split; congruence.
  - right. repeat split; congruence.
  - right. repeat split; congruence.
Qed.

Lemma evolves_setOnce (client : string) (e : El) :
  evolves client e (Element.setOnce e true).
Proof.
  repeat split; try done.
  unfold computedBroadcast. simpl.
  destruct (attrs e !! "firebase-broadcast"); [|done]. repeat split; by left.
Qed.

Lemma schemaBool_true (v : option value) (k : string) :
  schemaBool (Element.props v) k = true -> exists o, v = Some (VObj o).
Proof.
  destruct v as [[]|]; try done. by eexists.
Qed.

Lemma computedBroadcast_shared (e : El) (b : BroadcastData) :
  computedBroadcast e = Some b -> bd_shared b = true ->
  exists o, attrs e !! "firebase-broadcast" = Some (VObj o) /\ b = schemaData o.
Proof.
  unfold computedBroadcast.
  destruct (attrs e !! "firebase-broadcast") as [v|] eqn:E; [|done].
  intros [= <-] Hs.
  destruct (schemaBool_true (Some v) "shared" Hs) as [o [= ->]]. by exists o.
Qed.

(** Line 180: claiming an unowned shared element. *)
Lemma computedBroadcast_claim (client : string) (e : El) (o : object) :
  attrs e !! "firebase-broadcast" = Some (VObj o) ->
  computedBroadcast
    (Element.setProperty e "firebase-broadcast" "owner" (VStr client))
  = Some {| bd_id := bd_id (schemaData o);
            bd_components := bd_components (schemaData o);
            bd_componentsOnce := bd_componentsOnce (schemaData o);
            bd_shared := bd_shared (schemaData o);
            bd_owner := client |}.
Proof.
  intros Ho. unfold computedBroadcast, Element.setProperty. simpl.
  rewrite lookup_insert_eq, Ho. simpl.
  unfold schemaData, schemaString, schemaArray, schemaBool.
  rewrite get_set_eq. by rewrite !get_set_ne by done.
Qed.

Lemma evolves_claim (client : string) (e : El) (b : BroadcastData) :
  computedBroadcast e = Some b -> bd_shared b = true -> bd_owner b = "" ->
  evolves client e
    (Element.setProperty e "firebase-broadcast" "owner" (VStr client)).
Proof.
  intros Hb Hs Ho.
  destruct (computedBroadcast_shared e b Hb Hs) as (o & Hattr & ->).
  unfold evolves. rewrite Hb, (computedBroadcast_claim client e o Hattr).
  unfold Element.getAttribute, Element.setProperty. simpl.
  rewrite lookup_insert_eq, Hattr. simpl.
  repeat split; try done.
  - unfold Obj.read. by rewrite get_set_ne.
  - by right.
Qed.

Lemma docEvolves_refl (client : string) (s : System) : docEvolves client s s.
Proof. intros h e He. exists e. split; [done | apply evolves_refl]. Qed.

Lemma docEvolves_trans (client : string) (s1 s2 s3 : System) :
  docEvolves client s1 s2 -> docEvolves client s2 s3 -> docEvolves client s1 s3.
Proof.
  intros H12 H23 h e He.
  destruct (H12 h e He) as (e2 & He2 & Hev2).
  destruct (H23 h e2 He2) as (e3 & He3 & Hev3).
  exists e3. split; [done | by eapply evolves_trans].
Qed.

Lemma docEvolves_insert (client : string) (s s' : System) (h : handle) (e e' : El) :
  document s !! h = Some e -> evolves client e e' ->
  document s' = <[h := e']> (document s) ->
  docEvolves client s s'.
Proof.
  intros He Hev Hdoc h0 e0 He0. rewrite Hdoc.
  destruct (decide (h0 = h)) as [->|Hne].
  - exists e'. rewrite list_lookup_insert_eq by by eapply lookup_lt_Some.
    split; [done | congruence].
  - exists e0. rewrite list_lookup_insert_ne by done.
    split; [done | apply evolves_refl].
Qed.

Lemma deref_Some (s : System) (r : option handle) (h : handle) (e : El) :
  deref s r = Some (h, e) -> r = Some h /\ document s !! h = Some e.
Proof.
  unfold deref. destruct r as [h'|]; [|done].
  destruct (document s !! h') eqn:E; [|done]. by intros [= <- <-].
Qed.

(** *** The stages of the callback *)

Lemma claimOwner_evolves (client : string) (b : BroadcastData) (e : El) :
  computedBroadcast e = Some b ->
  evolves client e (claimOwner client b e).1.1.
Proof.
  intros Hb. unfold claimOwner. simpl.
  destruct (bd_shared b) eqn:Hs; simpl; [|apply evolves_refl].
  destruct (String.eqb (bd_owner b) "") eqn:Ho; [|apply evolves_refl].
  apply String.eqb_eq in Ho. by eapply evolves_claim.
Qed.

(** After line 183 the element's owner is the owner the callback goes on
    with. *)
Lemma claimOwner_owner (client : string) (b : BroadcastData) (e : El) :
  computedBroadcast e = Some b ->
  exists b1, computedBroadcast (claimOwner client b e).1.1 = Some b1 /\
             bd_owner b1 = (claimOwner client b e).1.2 /\
             bd_shared b1 = bd_shared b.
Proof.
  intros Hb. unfold claimOwner. simpl.
  destruct (bd_shared b) eqn:Hs; simpl; [|by exists b].
  destruct (String.eqb (bd_owner b) "") eqn:Ho; [|by exists b].
  destruct (computedBroadcast_shared e b Hb Hs) as (o & Hattr & Hbo).
  rewrite (computedBroadcast_claim client e o Hattr).
  eexists. split; [done |]. rewrite Hbo in Hs. by split.
Qed.

Lemma claimOwner_unowned (client : string) (b : BroadcastData) (e : El) :
  bd_shared b = true -> bd_owner b = "" ->
  (claimOwner client b e).1.2 = client /\
  recordOwner (claimOwner client b e).2 = Some (VStr client).
Proof. intros Hs Ho. unfold claimOwner. by rewrite Hs, Ho. Qed.

Lemma claimOwner_owned (client : string) (b : BroadcastData) (e : El) :
  bd_owner b ≠ "" ->
  (claimOwner client b e).1.1 = e /\ (claimOwner client b e).1.2 = bd_owner b.
Proof.
  intros Ho%String.eqb_neq. unfold claimOwner.
  by rewrite Ho, andb_false_r.
Qed.

Lemma claimOwner_parentId (client : string) (b : BroadcastData) (e : El) :
  Obj.get "parentId" (claimOwner client b e).2 = None.
Proof. done. Qed.

Lemma addOnce_evolves (client : string) (b : BroadcastData) (e : El) :
  evolves client e (addOnce b e).1.
Proof.
  unfold addOnce. destruct (firebaseBroadcastOnce e); simpl.
  - apply evolves_refl.
  - apply evolves_setOnce.
Qed.

Lemma addOnce_computedBroadcast (b : BroadcastData) (e : El) :
  computedBroadcast (addOnce b e).1 = computedBroadcast e.
Proof. unfold addOnce. by destruct (firebaseBroadcastOnce e). Qed.

Lemma addOnce_components (b : BroadcastData) (e : El) (x : string) :
  x ∈ (addOnce b e).2 -> x ∈ bd_components b \/ x ∈ bd_componentsOnce b.
Proof.
  unfold addOnce. destruct (firebaseBroadcastOnce e); simpl.
  - by left.
  - by intros ?%elem_of_app.
Qed.

Lemma addOnce_parentNode (b : BroadcastData) (e : El) :
  parentNode (addOnce b e).1 = parentNode e.
Proof. unfold addOnce. by destruct (firebaseBroadcastOnce e). Qed.

(** Line 197: a parent without broadcast data stops the callback. *)
Lemma linkParent_waits (scene p : handle) (doc : list El) (e pe : El) (data : object) :
  parentNode e = Some p -> p ≠ scene -> doc !! p = Some pe ->
  truthy (Element.getAttribute pe "firebase-broadcast") = false ->
  linkParent scene doc e data = Normal None.
Proof.
  intros Hp Hne Hpe Ht. unfold linkParent. rewrite Hp, Hpe, Ht.
  by apply Nat.eqb_neq in Hne as ->.
Qed.

(** Line 198: otherwise the record gets the [id] of that data. *)
Lemma linkParent_links (scene p : handle) (doc : list El) (e pe : El)
  (data data1 : object) :
  parentNode e = Some p -> p ≠ scene -> doc !! p = Some pe ->
  truthy (Element.getAttribute pe "firebase-broadcast") = true ->
  linkParent scene doc e data = Normal (Some data1) ->
  exists pid, member (Element.getAttribute pe "firebase-broadcast") "id" = Normal pid /\
              Obj.get "parentId" data1 = Some pid.
Proof.
  intros Hp Hne Hpe Ht. unfold linkParent. rewrite Hp, Hpe, Ht.
  apply Nat.eqb_neq in Hne as ->.
  destruct (member _ "id") as [pid|]; [|done].
  intros [= <-]. exists pid. by rewrite get_set_eq.
Qed.

Lemma linkParent_broadcastMeta (scene : handle) (doc : list El) (e : El)
  (data data1 : object) :
  linkParent scene doc e data = Normal (Some data1) ->
  Obj.get "firebase-broadcast" data1 = Obj.get "firebase-broadcast" data.
Proof.
  unfold linkParent. repeat case_match; try done; intros [= <-]; try done.
  by rewrite get_set_ne.
Qed.

(** The loop of line 202 writes the fields named by the components only. *)
Lemma getData_get (e : El) (components : list string) (data data' : object)
  (k : string) :
  getData e components data = Normal data' ->
  Obj.get k data' = Obj.get k data \/
  k ∈ components /\
  exists v, getComputedAttribute e k = Normal v /\ Obj.get k data' = Some v.
Proof.
  revert data. induction components as [|c components IH]; intros data; simpl.
  - intros [= <-]. by left.
  - destruct (getComputedAttribute e c) as [v|] eqn:Hv; [|done].
    intros Hrest. destruct (IH _ Hrest) as [Hsame|(Hin & v' & Hv' & Hget)].
    + destruct (decide (c = k)) as [->|Hne].
      * right. split; [left |]. exists v. by rewrite Hsame, get_set_eq.
      * left. by rewrite Hsame, get_set_ne.
    + right. split; [by right |]. by exists v'.
Qed.

(** *** The log of store operations *)

Lemma issued_app (s s' : System) (ops : list StoreOp) :
  store s' = (store s ++ ops)%list -> issued s s' = ops.
Proof. intros H. unfold issued. by rewrite H, drop_app_length. Qed.

Lemma issued_same (s s' : System) : store s' = store s -> issued s s' = [].
Proof. intros H. apply issued_app. by rewrite app_nil_r. Qed.

Lemma grows_refl (s : System) : grows s s.
Proof. exists []. by rewrite app_nil_r. Qed.

Lemma grows_trans (s1 s2 s3 : System) : grows s1 s2 -> grows s2 s3 -> grows s1 s3.
Proof.
  intros [a Ha] [b Hb]. exists (a ++ b)%list. by rewrite Hb, Ha, app_assoc.
Qed.

Lemma issued_trans (s1 s2 s3 : System) :
  grows s1 s2 -> grows s2 s3 ->
  issued s1 s3 = (issued s1 s2 ++ issued s2 s3)%list.
Proof.
  intros [a Ha] [b Hb].
  rewrite (issued_app s1 s2 a Ha), (issued_app s2 s3 b Hb).
  apply issued_app. by rewrite Hb, Ha, app_assoc.
Qed.

Lemma updatesAt_app (id : string) (a b : list StoreOp) :
  updatesAt id (a ++ b) = (updatesAt id a ++ updatesAt id b)%list.
Proof. apply omap_app. Qed.

Lemma path_eqb (a b : string) :
  String.eqb ("entities/" ++ a) ("entities/" ++ b) = String.eqb a b.
Proof. done. Qed.

Lemma updatesAt_update (id id' : string) (data : object) :
  updatesAt id' [Update ("entities/" ++ id) data] =
  if String.eqb id id' then [data] else [].
Proof.
  unfold updatesAt. cbn [omap list_omap]. rewrite path_eqb.
  by destruct (String.eqb id id').
Qed.

Lemma deref_intro (s : System) (r : option handle) (h : handle) (e : El) :
  r = Some h -> document s !! h = Some e -> deref s r = Some (h, e).
Proof. intros -> H. unfold deref. by rewrite H. Qed.

(** *** One call of the callback *)

Section Callback.

Variables (broadcasting : gmap string handle) (client : string)
  (db : option string) (scene : handle).

Lemma step_refl (id : string) (s : System) : step broadcasting client id s s.
Proof.
  repeat split.
  - apply docEvolves_refl.
  - apply grows_refl.
  - intros. by rewrite issued_same.
Qed.

Lemma step_intro (id : string) (s s' : System) (el : handle) (e e' : El)
  (ops : list StoreOp) :
  broadcasting !! id = Some el -> document s !! el = Some e ->
  evolves client e e' ->
  document s' = <[el := e']> (document s) ->
  store s' = (store s ++ ops)%list ->
  (ops = [] \/ exists data, ops = [Update ("entities/" ++ id) data]) ->
  step broadcasting client id s s'.
Proof.
  intros Hk He Hev Hdoc Hstore Hops. repeat split.
  - by eapply docEvolves_insert.
  - by exists ops.
  - intros h Hh. rewrite Hdoc. apply list_lookup_insert_ne. congruence.
  - intros id' Hne. rewrite (issued_app s s' ops Hstore).
    destruct Hops as [->|[data ->]]; [done |].
    rewrite updatesAt_update.
    apply String.eqb_neq in Hne. rewrite String.eqb_sym. by rewrite Hne.
Qed.

Lemma broadcastEntity_step (id : string) (s : System) :
  step broadcasting client id s
    (snd (broadcastEntity broadcasting client db scene id s)).
Proof.
  unfold broadcastEntity.
  destruct (deref s (broadcasting !! id)) as [[el e]|] eqn:Hd;
    [|apply step_refl].
  apply deref_Some in Hd as [Hk He].
  destruct (computedBroadcast e) as [b|] eqn:Hb; [|apply step_refl].
  pose proof (claimOwner_evolves client b e Hb) as He1.
  destruct (claimOwner client b e) as [[e1 owner] data].
  pose proof (addOnce_evolves client b e1) as He2.
  destruct (addOnce b e1) as [e2 components]. simpl in He1, He2.
  assert (He12 : evolves client e e2) by by eapply evolves_trans.
  destruct (bd_shared b && negb (String.eqb owner client)).
  { eapply (step_intro id s _ el e e1 []); simpl; eauto using app_nil_r. }
  cbv zeta. unfold update.
  repeat case_match; simpl;
    (eapply (step_intro id s _ el e e2);
     [done | done | done | simpl; apply list_insert_insert_eq
      | simpl; try (symmetry; apply app_nil_r); reflexivity
      | first [by left | right; by eexists]]).
Qed.

End Callback.

(** *** The ownership claim, the ownership gate and the parent link *)

Section Stages.

Variables (broadcasting : gmap string handle) (client : string)
  (db : option string) (scene : handle).
Variables (id : string) (s : System) (el : handle) (e : El) (b : BroadcastData).
Hypothesis Hkey : broadcasting !! id = Some el.
Hypothesis Hel : document s !! el = Some e.
Hypothesis Hdata : computedBroadcast e = Some b.

Lemma broadcastEntity_unfold :
  broadcastEntity broadcasting client db scene id s =
  let '(e1, owner, data) := claimOwner client b e in
  let s1 := setDocument (<[el := e1]> (document s)) s in
  if bd_shared b && negb (String.eqb owner client) then (Normal tt, s1)
  else
    let '(e2, components) := addOnce b e1 in
    let s2 := setDocument (<[el := e2]> (document s1)) s1 in
    match linkParent scene (document s2) e2 data with
    | Throw x => (Throw x, s2)
    | Normal None => (Normal tt, s2)
    | Normal (Some data1) =>
        match getData e2 components data1 with
        | Throw x => (Throw x, s2)
        | Normal data2 =>
            match db with
            | None => (Throw TypeError, s2)
            | Some _ => update ("entities/" ++ id) data2 s2
            end
        end
    end.
Proof.
  unfold broadcastEntity. by rewrite (deref_intro _ _ _ _ Hkey Hel), Hdata.
Qed.

(** Lines 179-183 and 186, on the element itself: an element that is shared
    and unowned, or already owned by this client, is owned by this client
    when the callback ends, however it ends. *)
Lemma broadcastEntity_owner :
  bd_shared b = true -> bd_owner b = "" \/ bd_owner b = client ->
  ownerOf (snd (broadcastEntity broadcasting client db scene id s)) el
  = Some client.
Proof.
  intros Hs Ho. rewrite broadcastEntity_unfold.
  destruct (claimOwner_owner client b e Hdata) as (b1 & Hb1 & Ho1 & _).
  assert (Hown : (claimOwner client b e).1.2 = client).
  { destruct (decide (bd_owner b = "")) as [Hempty|Hne].
    - by apply claimOwner_unowned.
    - destruct Ho as [Ho|Ho]; [done |].
      destruct (claimOwner_owned client b e Hne) as [_ ->]. done. }
  pose proof (addOnce_computedBroadcast b (claimOwner client b e).1.1) as Hb2.
  destruct (claimOwner client b e) as [[e1 owner] data]. simpl in *.
  assert (Hlt : el < length (document s)) by by eapply lookup_lt_Some.
  assert (H1 : forall s', document s' = <[el := e1]> (document s) ->
                          ownerOf s' el = Some client).
  { intros s' Hdoc. unfold ownerOf, broadcastOf.
    rewrite Hdoc, list_lookup_insert_eq by done. simpl.
    rewrite Hb1. simpl. congruence. }
  destruct (bd_shared b && negb (String.eqb owner client)); [by apply H1 |].
  destruct (addOnce b e1) as [e2 components]. simpl in Hb2.
  assert (H2 : forall s', document s' = <[el := e2]> (<[el := e1]> (document s)) ->
                          ownerOf s' el = Some client).
  { intros s' Hdoc. unfold ownerOf, broadcastOf.
    rewrite Hdoc, list_insert_insert_eq, list_lookup_insert_eq by done. simpl.
    rewrite Hb2, Hb1. simpl. congruence. }
  cbv zeta. unfold update. repeat case_match; by apply H2.
Qed.

(** Line 182, on the record: when the callback claims the element, the
    record it sends names this client as owner. *)
Lemma broadcastEntity_sends_owner :
  bd_shared b = true -> bd_owner b = "" ->
  forall data,
    data ∈ updatesAt id
             (issued s (snd (broadcastEntity broadcasting client db scene id s))) ->
    recordOwner data = Some (VStr client).
Proof.
  intros Hs Ho data. rewrite broadcastEntity_unfold.
  destruct (claimOwner_owner client b e Hdata) as (b1 & Hb1 & Ho1 & _).
  destruct (claimOwner_unowned client b e Hs Ho) as [Hown Hrec].
  pose proof (addOnce_computedBroadcast b (claimOwner client b e).1.1) as Hb2.
  destruct (claimOwner client b e) as [[e1 owner] data0]. simpl in *.
  destruct (bd_shared b && negb (String.eqb owner client)).
  { simpl. rewrite issued_same by done. by intros ?%elem_of_nil. }
  destruct (addOnce b e1) as [e2 components]. simpl in Hb2. cbv zeta.
  destruct (linkParent _ _ e2 data0) as [[data1|]|x] eqn:Hlink;
    try (simpl; rewrite issued_same by done; by intros ?%elem_of_nil).
  destruct (getData e2 components data1) as [data2|x] eqn:Hget;
    try (simpl; rewrite issued_same by done; by intros ?%elem_of_nil).
  destruct db;
    try (simpl; rewrite issued_same by done; by intros ?%elem_of_nil).
  unfold update. destruct (existsb _ data2);
    try (simpl; rewrite issued_same by done; by intros ?%elem_of_nil).
  simpl. rewrite (issued_app _ _ [Update ("entities/" ++ id) data2]) by done.
  rewrite updatesAt_update, String.eqb_refl.
  intros ->%list_elem_of_singleton.
  apply linkParent_broadcastMeta in Hlink.
  destruct (getData_get e2 components data1 data2 "firebase-broadcast" Hget)
    as [Hsame|(_ & v & Hv & Hnew)].
  - unfold recordOwner in *. by rewrite Hsame, Hlink.
  - unfold recordOwner. rewrite Hnew.
    unfold getComputedAttribute, computedAttribute in Hv. simpl in Hv.
    rewrite Hb2, Hb1 in Hv. injection Hv as <-. simpl. congruence.
Qed.

(** Line 186: an element that is shared and owned by another client sends
    nothing. *)
Lemma broadcastEntity_gate :
  bd_shared b = true -> bd_owner b ≠ "" -> bd_owner b ≠ client ->
  issued s (snd (broadcastEntity broadcasting client db scene id s)) = [].
Proof.
  intros Hs Ho Hc. rewrite broadcastEntity_unfold.
  destruct (claimOwner_owned client b e Ho) as [_ Hown].
  destruct (claimOwner client b e) as [[e1 owner] data]. simpl in *.
  subst owner. apply String.eqb_neq in Hc. rewrite Hs, Hc. simpl.
  by apply issued_same.
Qed.

(** The parent the callback sees at line 196 is the parent of the scene the
    callback started from, up to [evolves]. *)
Lemma parent_lookup (p : handle) (pe e1 e2 : El) :
  document s !! p = Some pe -> evolves client e e2 ->
  exists pe2, <[el := e2]> (<[el := e1]> (document s)) !! p = Some pe2 /\
              evolves client pe pe2.
Proof.
  intros Hp Hev. rewrite list_insert_insert_eq.
  destruct (decide (p = el)) as [->|Hne].
  - exists e2. rewrite list_lookup_insert_eq by by eapply lookup_lt_Some.
    split; [done | congruence].
  - exists pe. rewrite list_lookup_insert_ne by done.
    split; [done | apply evolves_refl].
Qed.

Variables (p : handle) (pe : El).
Hypothesis Hparent : parentNode e = Some p.
Hypothesis Hroot : p ≠ scene.
Hypothesis Hpe : document s !! p = Some pe.

(** Line 197: while the parent has no broadcast data the callback sends
    nothing. *)
Lemma broadcastEntity_waits :
  truthy (Element.getAttribute pe "firebase-broadcast") = false ->
  issued s (snd (broadcastEntity broadcasting client db scene id s)) = [].
Proof.
  intros Hfalsy. rewrite broadcastEntity_unfold.
  pose proof (claimOwner_evolves client b e Hdata) as He1.
  destruct (claimOwner client b e) as [[e1 owner] data]. simpl in *.
  destruct (bd_shared b && negb (String.eqb owner client));
    [by apply issued_same |].
  pose proof (addOnce_evolves client b e1) as He2.
  destruct (addOnce b e1) as [e2 components]. simpl in He2. cbv zeta.
  assert (He12 : evolves client e e2) by by eapply evolves_trans.
  destruct (parent_lookup p pe e1 e2 Hpe He12) as (pe2 & Hpe2 & Hev).
  erewrite linkParent_waits; [by apply issued_same | | done | exact Hpe2 |].
  - destruct He12 as (-> & _). done.
  - destruct Hev as (_ & _ & -> & _). done.
Qed.

(** Line 198: when the parent has broadcast data, a record that is sent
    carries the [id] of that data as [parentId], provided no component of
    the entity is itself called [parentId]. *)
Lemma broadcastEntity_parentId :
  truthy (Element.getAttribute pe "firebase-broadcast") = true ->
  "parentId" ∉ bd_components b -> "parentId" ∉ bd_componentsOnce b ->
  forall data,
    data ∈ updatesAt id
             (issued s (snd (broadcastEntity broadcasting client db scene id s))) ->
    exists pid,
      member (Element.getAttribute pe "firebase-broadcast") "id" = Normal pid /\
      Obj.get "parentId" data = Some pid.
Proof.
  intros Htruthy Hc Hco data. rewrite broadcastEntity_unfold.
  pose proof (claimOwner_evolves client b e Hdata) as He1.
  destruct (claimOwner client b e) as [[e1 owner] data0]. simpl in *.
  destruct (bd_shared b && negb (String.eqb owner client)).
  { simpl. rewrite issued_same by done. by intros ?%elem_of_nil. }
  pose proof (addOnce_evolves client b e1) as He2.
  pose proof (addOnce_components b e1 "parentId") as Hcomps.
  destruct (addOnce b e1) as [e2 components]. simpl in He2, Hcomps. cbv zeta.
  assert (He12 : evolves client e e2) by by eapply evolves_trans.
  destruct (parent_lookup p pe e1 e2 Hpe He12) as (pe2 & Hpe2 & Hev).
  destruct (linkParent _ _ e2 data0) as [[data1|]|x] eqn:Hlink;
    try (simpl; rewrite issued_same by done; by intros ?%elem_of_nil).
  destruct (getData e2 components data1) as [data2|x] eqn:Hget;
    try (simpl; rewrite issued_same by done; by intros ?%elem_of_nil).
  destruct db;
    try (simpl; rewrite issued_same by done; by intros ?%elem_of_nil).
  unfold update. destruct (existsb _ data2);
    try (simpl; rewrite issued_same by done; by intros ?%elem_of_nil).
  simpl. rewrite (issued_app _ _ [Update ("entities/" ++ id) data2]) by done.
  rewrite updatesAt_update, String.eqb_refl.
  intros ->%list_elem_of_singleton.
  destruct Hev as (_ & _ & Ht2 & Hm2 & _).
  eapply linkParent_links in Hlink as (pid & Hpid & Hget1);
    [| by destruct He12 as (-> & _) | done | exact Hpe2 | congruence].
  exists pid. split; [congruence |].
  destruct (getData_get e2 components data1 data2 "parentId" Hget)
    as [Hsame|(Hin & _)]; [congruence |].
  destruct (Hcomps Hin); done.
Qed.

End Stages.

(** *** A whole pass *)

Lemma docEvolves_broadcastOf (client : string) (s s' : System) (h : handle)
  (b : BroadcastData) :
  docEvolves client s s' -> broadcastOf s h = Some b ->
  exists b', broadcastOf s' h = Some b' /\ dataEvolves client b b'.
Proof.
  unfold broadcastOf. intros Hev Hb.
  destruct (document s !! h) as [e|] eqn:He; [|done]. simpl in Hb.
  destruct (Hev h e He) as (e' & He' & _ & _ & _ & _ & Hdata).
  rewrite He'. simpl. rewrite Hb in Hdata.
  destruct (computedBroadcast e') as [b'|]; [|done]. by exists b'.
Qed.

Section Pass.

Variables (broadcasting : gmap string handle) (client : string)
  (db : option string) (scene : handle).

Local Abbreviation callback := (broadcastEntity broadcasting client db scene).

(** The loop over a list of keys touches the elements of those keys and
    sends to the paths of those keys only. *)
Lemma pass_steps (l : list string) (s : System) :
  let s' := snd (forEach callback l s) in
  docEvolves client s s' /\ grows s s' /\
  (forall h, (forall k, k ∈ l -> broadcasting !! k ≠ Some h) ->
             document s' !! h = document s !! h) /\
  (forall id', id' ∉ l -> updatesAt id' (issued s s') = []).
Proof.
  cbv zeta.
  apply (forEach_invariant
           (fun s' =>
              docEvolves client s s' /\ grows s s' /\
              (forall h, (forall k, k ∈ l -> broadcasting !! k ≠ Some h) ->
                         document s' !! h = document s !! h) /\
              (forall id', id' ∉ l -> updatesAt id' (issued s s') = []))).
  - intros k s1 Hk (Hev & Hgr & Hdoc & Hup).
    destruct (broadcastEntity_step broadcasting client db scene k s1)
      as (Hev' & Hgr' & Hdoc' & Hup').
    repeat split.
    + by eapply docEvolves_trans.
    + by eapply grows_trans.
    + intros h Hh. rewrite Hdoc' by by apply Hh. by apply Hdoc.
    + intros id' Hid'. rewrite (issued_trans s s1) by done.
      rewrite updatesAt_app, Hup, Hup'; [done | | done].
      intros ->. done.
  - repeat split.
    + apply docEvolves_refl.
    + apply grows_refl.
    + intros. by rewrite issued_same.
Qed.

(** The records a pass sends for the key [k] are those its call for [k]
    sends; the calls for the other keys only have to keep what that call
    relies on. *)
Lemma pass_updates_at (I : System -> Prop) (Q : object -> Prop) (k : string)
  (l : list string) :
  NoDup l ->
  (forall k0 s0, k0 ≠ k -> I s0 -> I (snd (callback k0 s0))) ->
  (forall s0, I s0 ->
     forall data, data ∈ updatesAt k (issued s0 (snd (callback k s0))) -> Q data) ->
  forall s, I s ->
    forall data, data ∈ updatesAt k (issued s (snd (forEach callback l s))) ->
                 Q data.
Proof.
  intros Hnd Hkeep Hcall. induction l as [|k0 l IH]; intros s HI data.
  - simpl. rewrite issued_same by done. by intros ?%elem_of_nil.
  - apply NoDup_cons in Hnd as [Hk0 Hnd].
    pose proof (broadcastEntity_step broadcasting client db scene k0 s)
      as (_ & Hgr & _ & Hup).
    pose proof (Hcall s HI data) as Hcall_s.
    pose proof (Hkeep k0 s) as Hkeep_s.
    simpl. unfold bind.
    destruct (callback k0 s) as [[[]|x] s1] eqn:Hcb; simpl in *.
    + pose proof (pass_steps l s1) as (_ & Hgr' & _ & Hup').
      rewrite (issued_trans s s1) by done.
      rewrite updatesAt_app, elem_of_app.
      destruct (decide (k0 = k)) as [->|Hne].
      * rewrite (Hup' k Hk0). intros [Hin|Hin%elem_of_nil]; [|done].
        rewrite Hcb in Hcall_s. by apply Hcall_s.
      * rewrite (Hup k) by done. intros [Hin%elem_of_nil|Hin]; [done |].
        apply (IH Hnd s1); [by apply Hkeep_s | done].
    + destruct (decide (k0 = k)) as [->|Hne].
      * rewrite Hcb in Hcall_s. by apply Hcall_s.
      * rewrite (Hup k) by done. by intros ?%elem_of_nil.
Qed.

(** A pass that completes has made its call for every key of the list. *)
Lemma pass_reaches (I J : System -> Prop) (k : string) (l : list string) :
  (forall k0 s0, I s0 -> I (snd (callback k0 s0))) ->
  (forall k0 s0, J s0 -> J (snd (callback k0 s0))) ->
  (forall s0, I s0 -> J (snd (callback k s0))) ->
  k ∈ l ->
  forall s, I s -> fst (forEach callback l s) = Normal tt ->
            J (snd (forEach callback l s)).
Proof.
  intros HI HJ Hcall. induction l as [|k0 l IH]; intros Hin s Hs.
  - by apply elem_of_nil in Hin.
  - simpl. unfold bind.
    pose proof (HI k0 s Hs) as HI1. pose proof (Hcall s Hs) as HJ1.
    destruct (callback k0 s) as [[[]|x] s1] eqn:Hcb; simpl in *; [|done].
    intros Hnormal.
    destruct (decide (k0 = k)) as [->|Hne].
    + rewrite Hcb in HJ1. simpl in HJ1.
      apply (forEach_invariant J); [|done]. intros. by apply HJ.
    + apply elem_of_cons in Hin as [->|Hin]; [done |]. by apply IH.
Qed.

End Pass.

(** *** A tick *)

Lemma keys_NoDup (m : gmap string handle) : NoDup (map_to_list m).*1.
Proof. apply NoDup_fst_map_to_list. Qed.

Lemma keys_elem (m : gmap string handle) (k : string) (h : handle) :
  m !! k = Some h -> k ∈ (map_to_list m).*1.
Proof.
  intros H. apply list_elem_of_fmap. exists (k, h).
  split; [done | by apply elem_of_map_to_list].
Qed.

Lemma tick_docEvolves (s : System) (t : Z) :
  docEvolves (clientId s) s (snd (tick t s)).
Proof.
  destruct (passes s t) eqn:E.
  - rewrite passes_true_tick by done.
    apply (pass_steps (broadcastingEntities s) (clientId s) (database s)
             (sceneEl s) _ (setTime (Some t) s)).
  - rewrite passes_false_tick by done. apply docEvolves_refl.
Qed.

Lemma tick_clientId (s : System) (t : Z) : clientId (snd (tick t s)) = clientId s.
Proof.
  destruct (passes s t) eqn:E.
  - rewrite passes_true_tick by done.
    pose proof (pass_frame (broadcastingEntities s) (clientId s) (database s)
                  (sceneEl s) (map_to_list (broadcastingEntities s)).*1
                  (setTime (Some t) s)) as (_&Hc&_).
    by rewrite Hc.
  - by rewrite passes_false_tick.
Qed.

(** The records a tick sends for one key, from what its call for that key
    sends. *)
Lemma tick_updates_at (I : System -> Prop) (Q : object -> Prop) (k : string)
  (s : System) (t : Z) :
  let callback :=
    broadcastEntity (broadcastingEntities s) (clientId s) (database s)
      (sceneEl s) in
  (forall k0 s0, k0 ≠ k -> I s0 -> I (snd (callback k0 s0))) ->
  (forall s0, I s0 ->
     forall data, data ∈ updatesAt k (issued s0 (snd (callback k s0))) -> Q data) ->
  I (setTime (Some t) s) ->
  forall data, data ∈ updatesAt k (issued s (snd (tick t s))) -> Q data.
Proof.
  intros callback Hkeep Hcall HI data.
  destruct (passes s t) eqn:E.
  - rewrite passes_true_tick by done.
    change (issued s) with (issued (setTime (Some t) s)).
    eapply pass_updates_at; eauto using keys_NoDup.
  - rewrite passes_false_tick by done. simpl.
    rewrite issued_same by done. by intros ?%elem_of_nil.
Qed.

Lemma nil_of_no_elem {A} (l : list A) : (forall x, x ∈ l -> False) -> l = [].
Proof. destruct l as [|x l]; [done |]. intros H. destruct (H x). left. Qed.

Lemma broadcastOf_Some (s : System) (h : handle) (b : BroadcastData) :
  broadcastOf s h = Some b ->
  exists e, document s !! h = Some e /\ computedBroadcast e = Some b.
Proof.
  unfold broadcastOf. destruct (document s !! h) as [e|]; [|done].
  intros H. by exists e.
Qed.

(** ** Ownership of shared entities *)

(** The owner of an element only ever changes from empty to this client. *)
Lemma owner_kept (client : string) (s s' : System) (h : handle)
  (P : BroadcastData -> Prop) :
  (forall b b', dataEvolves client b b' -> P b -> P b') ->
  docEvolves client s s' ->
  (exists b, broadcastOf s h = Some b /\ P b) ->
  exists b', broadcastOf s' h = Some b' /\ P b'.
Proof.
  intros HP Hev (b & Hb & Hpb).
  destruct (docEvolves_broadcastOf client s s' h b Hev Hb) as (b' & Hb' & Hd).
  exists b'. split; [done | by eapply HP].
Qed.

Lemma ticks_owner (s : System) (h : handle) (ts : list Z) :
  ownerOf s h = Some (clientId s) ->
  ownerOf (ticks ts s) h = Some (clientId s).
Proof.
  revert s. induction ts as [|t ts IH]; intros s Ho; simpl; [done |].
  rewrite <- (tick_clientId s t). apply IH. rewrite tick_clientId.
  unfold ownerOf in *.
  destruct (broadcastOf s h) as [b|] eqn:Hb; [|done].
  destruct (docEvolves_broadcastOf _ s _ h b (tick_docEvolves s t) Hb)
    as (b' & -> & _ & _ & _ & _ & Ho').
  simpl in *. injection Ho as Ho.
  destruct Ho' as [->|(_ & _ & ->)]; by f_equal.
Qed.

(** Ownership of a shared entity of the Broadcast Table, on a whole tick.
    For a tick that runs its pass: an unowned entity is owned by this client
    once the pass has completed, and a record the tick sends for it names
    this client as owner (the entity being registered under that one key).
    An entity owned by another client gets no update from any tick.  And
    once the owner is this client, it stays this client through any run of
    ticks. *)
Theorem tick_ownership (s : System) (k : string) (h : handle) (b : BroadcastData) :
  broadcastingEntities s !! k = Some h ->
  broadcastOf s h = Some b ->
  bd_shared b = true ->
  (bd_owner b = "" -> forall t, passes s t = true ->
     (fst (tick t s) = Normal tt ->
      ownerOf (snd (tick t s)) h = Some (clientId s)) /\
     ((forall k', broadcastingEntities s !! k' = Some h -> k' = k) ->
      forall data, data ∈ updatesAt k (issued s (snd (tick t s))) ->
                   recordOwner data = Some (VStr (clientId s)))) /\
  (bd_owner b ≠ "" -> bd_owner b ≠ clientId s ->
   forall t, updatesAt k (issued s (snd (tick t s))) = []) /\
  (bd_owner b = clientId s ->
   forall ts, ownerOf (ticks ts s) h = Some (clientId s)).
Proof.
  intros Hk Hb Hs.
  set (callback := broadcastEntity (broadcastingEntities s) (clientId s)
                     (database s) (sceneEl s)).
  assert (Hstep : forall k0 s0,
             step (broadcastingEntities s) (clientId s) k0 s0
               (snd (callback k0 s0)))
    by (intros; apply broadcastEntity_step).
  split; [|split].
  - intros Ho t Hp. split.
    + intros Hdone. rewrite passes_true_tick in Hdone |- * by done.
      set (I := fun s0 : System =>
                  exists b0, broadcastOf s0 h = Some b0 /\
                             (bd_shared b0 = true /\
                              (bd_owner b0 = "" \/ bd_owner b0 = clientId s))).
      set (J := fun s0 : System =>
                  exists b0, broadcastOf s0 h = Some b0 /\
                             (bd_shared b0 = true /\ bd_owner b0 = clientId s)).
      assert (HJ : J (snd (forEach callback
                             (map_to_list (broadcastingEntities s)).*1
                             (setTime (Some t) s)))).
      { apply (pass_reaches _ _ _ _ I J k).
        - intros k0 s0 HI. eapply owner_kept; [| apply Hstep | exact HI].
          intros b1 b2 (_ & _ & _ & Hsh & Hown) [Hs1 Ho1].
          split; [congruence |].
          destruct Hown as [->|(_ & _ & ->)]; [done | by right].
        - intros k0 s0 HJ. eapply owner_kept; [| apply Hstep | exact HJ].
          intros b1 b2 (_ & _ & _ & Hsh & Hown) [Hs1 Ho1].
          split; [congruence |].
          destruct Hown as [->|(_ & _ & ->)]; done.
        - intros s0 (b0 & Hb0 & Hs0 & Ho0).
          destruct (broadcastOf_Some s0 h b0 Hb0) as (e0 & He0 & Hc0).
          pose proof (broadcastEntity_owner (broadcastingEntities s) (clientId s)
                        (database s) (sceneEl s) k s0 h e0 b0 Hk He0 Hc0 Hs0 Ho0)
            as Hown.
          destruct (Hstep k s0) as (Hev & _).
          destruct (docEvolves_broadcastOf _ _ _ h b0 Hev Hb0)
            as (b' & Hb' & _ & _ & _ & Hsh & _).
          exists b'. split; [done |]. split; [congruence |].
          fold callback in Hown. unfold ownerOf in Hown.
          rewrite Hb' in Hown. by injection Hown.
        - by eapply keys_elem.
        - exists b. split; [done |]. split; [done | by left].
        - done. }
      destruct HJ as (b' & Hb' & _ & Ho'). unfold ownerOf.
      fold callback. rewrite Hb'. simpl. by f_equal.
    + intros Huniq.
      apply (tick_updates_at
               (fun s0 => exists b0, broadcastOf s0 h = Some b0 /\
                                     (bd_shared b0 = true /\ bd_owner b0 = ""))).
      * intros k0 s0 Hne (b0 & Hb0 & HP). exists b0. split; [|done].
        destruct (Hstep k0 s0) as (_ & _ & Hdoc & _).
        unfold broadcastOf. fold callback. rewrite Hdoc; [done |].
        intros Hk0. by apply Hne, Huniq.
      * intros s0 (b0 & Hb0 & Hs0 & Ho0).
        destruct (broadcastOf_Some s0 h b0 Hb0) as (e0 & He0 & Hc0).
        by eapply broadcastEntity_sends_owner.
      * by exists b.
  - intros Ho Hc t. apply nil_of_no_elem.
    apply (tick_updates_at
             (fun s0 => exists b0, broadcastOf s0 h = Some b0 /\
                                   (bd_shared b0 = true /\
                                    bd_owner b0 = bd_owner b))
             (fun _ => False)).
    + intros k0 s0 _ HI. eapply owner_kept; [| apply Hstep | exact HI].
      intros b1 b2 (_ & _ & _ & Hsh & Hown) [Hs1 Ho1].
      split; [congruence |].
      destruct Hown as [->|(_ & ? & _)]; [done | congruence].
    + intros s0 (b0 & Hb0 & Hs0 & Ho0) data.
      destruct (broadcastOf_Some s0 h b0 Hb0) as (e0 & He0 & Hc0).
      rewrite (broadcastEntity_gate _ _ _ _ k s0 h e0 b0) by congruence.
      by intros ?%elem_of_nil.
    + by exists b.
  - intros Ho ts. apply ticks_owner. unfold ownerOf. rewrite Hb. simpl.
    by f_equal.
Qed.

Lemma tick_ownership_witness :
  ownerOf (snd (tick 0 Scene.withBox)) 1 = Some "client-a".
Proof.
  refine (proj1 (proj1 (tick_ownership Scene.withBox "box1" 1
                          {| bd_id := "-K0"; bd_components := ["position"];
                             bd_componentsOnce := ["color"]; bd_shared := true;
                             bd_owner := "" |} _ _ _) _ 0%Z _) _);
    vm_compute; reflexivity.
Defined.


(** ** The link to the parent *)

Lemma resolvedId_member (pe : El) (r : string) :
  resolvedId pe = Some r ->
  truthy (Element.getAttribute pe "firebase-broadcast") = true /\
  member (Element.getAttribute pe "firebase-broadcast") "id" = Normal (VStr r).
Proof.
  unfold resolvedId, computedBroadcast, Element.getAttribute.
  destruct (attrs pe !! "firebase-broadcast") as [v|]; [|done].
  destruct v as [| | | | | |o]; try done. simpl.
  unfold schemaString, Obj.read.
  destruct (Obj.get "id" o) as [[| | | |x| |]|]; try done. simpl.
  destruct (String.eqb x ""); [done |]. by intros [= ->].
Qed.

(** What a pass keeps of an entity and its parent. *)
Lemma parent_kept (client : string) (s s' : System) (h p : handle)
  (e pe : El) (b : BroadcastData) :
  docEvolves client s s' ->
  document s !! h = Some e -> computedBroadcast e = Some b ->
  parentNode e = Some p -> document s !! p = Some pe ->
  exists e' pe' b',
    document s' !! h = Some e' /\ computedBroadcast e' = Some b' /\
    dataEvolves client b b' /\
    parentNode e' = Some p /\ document s' !! p = Some pe' /\
    truthy (Element.getAttribute pe' "firebase-broadcast")
    = truthy (Element.getAttribute pe "firebase-broadcast") /\
    member (Element.getAttribute pe' "firebase-broadcast") "id"
    = member (Element.getAttribute pe "firebase-broadcast") "id".
Proof.
  intros Hev He Hb Hp Hpe.
  destruct (Hev h e He) as (e' & He' & Hpar & _ & _ & _ & Hdata).
  destruct (Hev p pe Hpe) as (pe' & Hpe' & _ & _ & Ht & Hm & _).
  rewrite Hb in Hdata.
  destruct (computedBroadcast e') as [b'|] eqn:Hb'; [|done].
  exists e', pe', b'.
  split; [done |]. split; [done |]. split; [exact Hdata |].
  split; [congruence |]. by repeat split.
Qed.

(** The link to the parent, on a whole tick.  For a broadcasting entity
    whose parent is not the scene root: while the parent has no
    [firebase-broadcast] data the tick sends no update for the entity; and
    when the parent has a resolved remote id, every record the tick sends
    for the entity carries that id as [parentId], provided the entity lists
    no component called [parentId]. *)
Theorem tick_parent_link (s : System) (t : Z) (k : string) (h p : handle)
  (e pe : El) (b : BroadcastData) :
  broadcastingEntities s !! k = Some h ->
  document s !! h = Some e -> computedBroadcast e = Some b ->
  parentNode e = Some p -> p ≠ sceneEl s -> document s !! p = Some pe ->
  (truthy (Element.getAttribute pe "firebase-broadcast") = false ->
   updatesAt k (issued s (snd (tick t s))) = []) /\
  (forall r, resolvedId pe = Some r ->
     "parentId" ∉ bd_components b -> "parentId" ∉ bd_componentsOnce b ->
     forall data, data ∈ updatesAt k (issued s (snd (tick t s))) ->
                  Obj.get "parentId" data = Some (VStr r)).
Proof.
  intros Hk He Hb Hp Hroot Hpe.
  set (callback := broadcastEntity (broadcastingEntities s) (clientId s)
                     (database s) (sceneEl s)).
  assert (Hstep : forall k0 s0,
             docEvolves (clientId s) s0 (snd (callback k0 s0)))
    by (intros; apply broadcastEntity_step).
  split.
  - intros Hfalsy. apply nil_of_no_elem.
    apply (tick_updates_at
             (fun s0 => exists e0 pe0 b0,
                document s0 !! h = Some e0 /\ computedBroadcast e0 = Some b0 /\
                parentNode e0 = Some p /\ document s0 !! p = Some pe0 /\
                truthy (Element.getAttribute pe0 "firebase-broadcast") = false)
             (fun _ => False)).
    + intros k0 s0 _ (e0 & pe0 & b0 & He0 & Hb0 & Hp0 & Hpe0 & Ht0).
      destruct (parent_kept _ _ _ h p e0 pe0 b0 (Hstep k0 s0) He0 Hb0 Hp0 Hpe0)
        as (e' & pe' & b' & ? & ? & _ & ? & ? & Ht' & _).
      exists e', pe', b'. repeat split; try done. congruence.
    + intros s0 (e0 & pe0 & b0 & He0 & Hb0 & Hp0 & Hpe0 & Ht0) data.
      rewrite (broadcastEntity_waits _ _ _ _ k s0 h e0 b0 Hk He0 Hb0 p pe0)
        by done.
      by intros ?%elem_of_nil.
    + by exists e, pe, b.
  - intros r Hr Hc Hco.
    destruct (resolvedId_member pe r Hr) as [Htruthy Hmember].
    apply (tick_updates_at
             (fun s0 => exists e0 pe0 b0,
                document s0 !! h = Some e0 /\ computedBroadcast e0 = Some b0 /\
                parentNode e0 = Some p /\ document s0 !! p = Some pe0 /\
                truthy (Element.getAttribute pe0 "firebase-broadcast") = true /\
                member (Element.getAttribute pe0 "firebase-broadcast") "id"
                = Normal (VStr r) /\
                bd_components b0 = bd_components b /\
                bd_componentsOnce b0 = bd_componentsOnce b)).
    + intros k0 s0 _ (e0 & pe0 & b0 & He0 & Hb0 & Hp0 & Hpe0 & Ht0 & Hm0 & Hc0 & Hco0).
      destruct (parent_kept _ _ _ h p e0 pe0 b0 (Hstep k0 s0) He0 Hb0 Hp0 Hpe0)
        as (e' & pe' & b' & ? & ? & (_ & Hc' & Hco' & _) & ? & ? & Ht' & Hm').
      exists e', pe', b'. repeat split; try done; congruence.
    + intros s0 (e0 & pe0 & b0 & He0 & Hb0 & Hp0 & Hpe0 & Ht0 & Hm0 & Hc0 & Hco0)
        data Hin.
      destruct (broadcastEntity_parentId _ _ _ _ k s0 h e0 b0 Hk He0 Hb0 p pe0
                  Hp0 Hroot Hpe0 Ht0 ltac:(by rewrite Hc0) ltac:(by rewrite Hco0)
                  data Hin) as (pid & Hpid & Hget).
      congruence.
    + exists e, pe, b. by repeat split.
Qed.

Lemma tick_parent_link_witness :
  updatesAt "ball1" (issued Scene.withBall (snd (tick 0 Scene.withBall))) = [].
Proof.
  refine (proj1 (tick_parent_link Scene.withBall 0 "ball1" 2 1
                   (Element.setProperty Scene.ball "firebase-broadcast" "id"
                      (VStr "-K0"))
                   Scene.group
                   {| bd_id := "-K0"; bd_components := ["position"];
                      bd_componentsOnce := ["color"]; bd_shared := false;
                      bd_owner := "" |} _ _ _ _ _ _) _);
    try (vm_compute; reflexivity).
  vm_compute. lia.
Defined.

(** C6. The group has a broadcast component that lists no component, so its
    [init] never registers it and it has no remote id.  The tick waits for
    a group without broadcast data (line 197), but not for this one: it
    goes on to line 198, where the id it reads is undefined, and hands the
    record to the store at line 207, which refuses it.  The entity is not
    skipped: the tick raises. *)
Theorem parent_without_id_raises :
  let s := Scene.withSilentGroup in
  broadcastingEntities s !! "ball1" = Some 2 /\
  (parentNode <$> document s !! 2) = Some (Some 1) /\
  sceneEl s = 0 /\
  (resolvedId <$> document s !! 1) = Some None /\
  (flip member "id" <$>
     (flip Element.getAttribute "firebase-broadcast" <$> document s !! 1))
  = Some (Normal VUndefined) /\
  fst (tick 0 s) = Throw StoreError /\
  fst (tick 0 Scene.withBall) = Normal tt.
Proof. repeat split; vm_compute; reflexivity. Qed.

(** ** Components sent once *)

(** C5. The ball lists [color] as a component to send once.  On the first
    pass its group has no broadcast data: line 191 raises the flag and line
    197 returns, so nothing is sent.  Once the group is registered the ball
    is sent on every pass, with its [parentId], and [color] is in none of
    the records: the component sent once is never sent. *)
Theorem componentsOnce_lost_while_waiting :
  let s1 := Scene.withBall in
  let s2 := snd (tick 0 s1) in
  let s3 := Scene.attach 1 s2 in
  let s4 := ticks [100; 200]%Z s3 in
  (bd_componentsOnce <$> broadcastOf s1 2) = Some ["color"] /\
  passes s1 0 = true /\
  updatesAt "ball1" (issued s1 s2) = [] /\
  (firebaseBroadcastOnce <$> document s2 !! 2) = Some true /\
  (resolvedId <$> document s3 !! 1) = Some (Some "-K1") /\
  executed [100; 200]%Z s3 = [100; 200]%Z /\
  map (Obj.get "parentId") (updatesAt "ball1" (issued s3 s4))
  = [Some (VStr "-K1"); Some (VStr "-K1")] /\
  map (Obj.get "color") (updatesAt "ball1" (store s4)) = [None; None].
Proof. repeat split; vm_compute; reflexivity. Qed.

(** * Further properties of the handlers *)

(** ** Inbound events never write outwards *)

Lemma inbound_refl (s : System) : inbound s s.
Proof. by repeat split. Qed.

Lemma inbound_trans (s1 s2 s3 : System) :
  inbound s1 s2 -> inbound s2 s3 -> inbound s1 s3.
Proof.
  unfold inbound. intros (?&?&?&?&?&?&?&?&?) (?&?&?&?&?&?&?&?&?).
  repeat split; congruence.
Qed.

Lemma setAttribute_inbound (el : option handle) (k : string) (v : value)
  (s : System) :
  inbound s (snd (setAttribute el k v s)).
Proof.
  unfold setAttribute. destruct (deref s el) as [[h e]|]; by repeat split.
Qed.

Lemma appendChild_inbound (p h : handle) (s : System) :
  inbound s (snd (appendChild p h s)).
Proof. unfold appendChild. repeat case_match; by repeat split. Qed.

Lemma forEach_inbound {A} (f : A -> M unit) (l : list A) (s : System) :
  (forall x s0, inbound s0 (snd (f x s0))) ->
  inbound s (snd (forEach f l s)).
Proof.
  intros Hf. apply (forEach_invariant (inbound s)); [|apply inbound_refl].
  intros x s0 _ H. eapply inbound_trans; [exact H | apply Hf].
Qed.

Lemma handleEntityAdded_inbound (id : string) (data : object) (s : System) :
  inbound s (snd (handleEntityAdded id data s)).
Proof.
  unfold handleEntityAdded.
  destruct (known s id); [apply inbound_refl |].
  destruct (member _ "shared") as [shared|x]; [|apply inbound_refl].
  cbv zeta. unfold bind.
  set (created := negb _). set (entity := if created then _ else _).
  set (s2 := setEntities _ _).
  assert (H2 : inbound s s2) by (subst s2; destruct created; by repeat split).
  pose proof (forEach_inbound (setComponentAdded entity data) (Obj.keys data) s2)
    as Hloop.
  destruct (forEach _ _ s2) as [[[]|x] s3]; simpl in Hloop.
  - assert (H3 : inbound s s3).
    { eapply inbound_trans; [exact H2 | apply Hloop].
      intros k s0. unfold setComponentAdded.
      case_match; [apply inbound_refl | apply setAttribute_inbound]. }
    destruct created; [|exact H3].
    eapply inbound_trans; [exact H3 | apply appendChild_inbound].
  - eapply inbound_trans; [exact H2 | apply Hloop].
    intros k s0. unfold setComponentAdded.
    case_match; [apply inbound_refl | apply setAttribute_inbound].
Qed.

(** X3. Additions and removals never write outwards.  However they end, the
    handlers of the added event and of the initial snapshot, for records
    that write no [firebase-broadcast] data on the entity, and the handler
    of the removed event issue no store operation, take no key, and leave
    the Broadcast Table, the recorded tick time and the settings of the
    system as they were. *)
Theorem inbound_events_silent (s : System) (id : string) (data : object)
  (snapshot : list (string * object)) :
  (quiet data = true -> inbound s (snd (handleEntityAdded id data s))) /\
  ((forall entityId, quiet (recordOf entityId snapshot) = true) ->
   inbound s (snd (handleInitialSync snapshot s))) /\
  inbound s (snd (handleEntityRemoved id s)).
Proof.
  split; [|split].
  - intros _. apply handleEntityAdded_inbound.
  - intros _. unfold handleInitialSync. apply forEach_inbound.
    intros x s0. case_match; [apply inbound_refl | apply handleEntityAdded_inbound].
  - unfold handleEntityRemoved. repeat case_match; by repeat split.
Qed.

Lemma inbound_events_silent_witness :
  inbound (Scene.live [Scene.root])
    (snd (handleEntityAdded "e1" Scene.remoteRecord (Scene.live [Scene.root]))).
Proof.
  apply (proj1 (inbound_events_silent (Scene.live [Scene.root]) "e1"
                  Scene.remoteRecord [])).
  vm_compute. reflexivity.
Defined.

(** ** Removal *)

(** X1. Removal of a known replica that hangs under a parent detaches it and
    erases its Replica Table entry; nothing else in the scene changes, the
    children of the removed entity included; and a repeated removal event
    is a no-op. *)
Theorem handleEntityRemoved_detaches (s : System) (id : string) (h p : handle)
  (e : El) :
  replica s id = Some h -> document s !! h = Some e -> parentNode e = Some p ->
  let s' := snd (handleEntityRemoved id s) in
  fst (handleEntityRemoved id s) = Normal tt /\
  entities s' = delete id (entities s) /\
  replica s' id = None /\
  document s' !! h = Some (Element.setParent e None) /\
  (forall h', h' ≠ h -> document s' !! h' = document s !! h') /\
  handleEntityRemoved id s' = (Normal tt, s').
Proof.
  intros Hr He Hp. cbv zeta.
  assert (Hrun : handleEntityRemoved id s =
                 (Normal tt,
                  setEntities (delete id (entities s))
                    (setDocument (<[h:=Element.setParent e None]> (document s)) s))).
  { unfold handleEntityRemoved. by rewrite Hr, He, Hp. }
  rewrite Hrun. simpl.
  assert (Hgone : replica
                    (setEntities (delete id (entities s))
                       (setDocument (<[h:=Element.setParent e None]> (document s)) s))
                    id = None).
  { unfold replica. simpl. by rewrite lookup_delete_eq. }
  repeat split; try done.
  - apply list_lookup_insert_eq. by eapply lookup_lt_Some.
  - intros h' Hne. by apply list_lookup_insert_ne.
  - by apply handleEntityRemoved_unknown.
Qed.

Lemma handleEntityRemoved_detaches_witness :
  replica (snd (handleEntityRemoved "e1" Scene.withReplica)) "e1" = None.
Proof.
  refine (proj1 (proj2 (proj2
            (handleEntityRemoved_detaches Scene.withReplica "e1" 1 0
               (Element.setParent
                  (Element.setAttribute newEl "position" (VStr "1 2 3"))
                  (Some 0)) _ _ _)))); vm_compute; reflexivity.
Defined.

(** ** The initial snapshot *)

(** The "added" handler writes at most the Replica Table entry of its own
    identifier, and only when the identifier was not known. *)
Lemma handleEntityAdded_tables (id : string) (data : object) (s : System) :
  let s' := snd (handleEntityAdded id data s) in
  entities s' = entities s \/
  known s id = false /\ exists entity, entities s' = <[id := entity]> (entities s).
Proof.
  cbv zeta. unfold handleEntityAdded.
  destruct (known s id) eqn:Hk; [by left |].
  destruct (member _ "shared") as [shared|x]; [|by left].
  cbv zeta. unfold bind.
  set (created := negb _). set (entity := if created then _ else _).
  set (s2 := setEntities _ _).
  assert (H2 : entities s2 = <[id := entity]> (entities s))
    by (subst s2; by destruct created).
  pose proof (forEach_invariant (sameTables s2) (setComponentAdded entity data)
                (Obj.keys data)
                (fun k s' _ Hs' =>
                   sameTables_trans _ _ _ Hs'
                     (setComponentAdded_sameTables entity data k s'))
                s2 (sameTables_refl s2)) as (He & _).
  right. split; [done |]. exists entity.
  destruct (forEach _ _ s2) as [[[]|x] s3]; simpl in *; [|congruence].
  destruct created; simpl; [|congruence].
  destruct (appendChild_sameTables
              (default (sceneEl s3)
                 (replica s3 (toString (Obj.read "parentId" data))))
              (length (document s)) s3) as (He' & _).
  congruence.
Qed.

Lemma handleEntityAdded_known_kept (id k : string) (data : object) (s : System) :
  known s k = true -> known (snd (handleEntityAdded id data s)) k = true.
Proof.
  intros Hk.
  destruct (handleEntityAdded_inbound id data s) as (_ & _ & Hb & _).
  destruct (handleEntityAdded_tables id data s) as [He|(Hid & entity & He)];
    unfold known, replica in *; rewrite Hb, He; [done |].
  rewrite lookup_insert_ne; [done |]. intros ->. congruence.
Qed.

Section InitialSync.

Variables (broadcasting : gmap string handle) (data : list (string * object)).

Lemma handleInitialSync_visit (s : System) :
  handleInitialSync data s =
  forEach (visit (broadcastingEntities s) data) (remove_dups (data.*1)) s.
Proof. done. Qed.

Lemma visit_known_kept (x k : string) (s : System) :
  known s k = true -> known (snd (visit broadcasting data x s)) k = true.
Proof.
  intros Hk. unfold visit. case_match; [done |].
  by apply handleEntityAdded_known_kept.
Qed.

Lemma visit_broadcasting (x : string) (s : System) :
  broadcastingEntities (snd (visit broadcasting data x s))
  = broadcastingEntities s.
Proof.
  unfold visit. case_match; [done |].
  by destruct (handleEntityAdded_inbound x (recordOf x data) s) as (_&_&Hb&_).
Qed.

Lemma visit_makes_known (x : string) (s s1 : System) :
  broadcastingEntities s = broadcasting ->
  visit broadcasting data x s = (Normal tt, s1) -> known s1 x = true.
Proof.
  intros HB. unfold visit. case_match eqn:Hx.
  - intros [= <-]. unfold known. rewrite HB, Hx. apply orb_true_r.
  - intros Hrun. destruct (known s x) eqn:Hk.
    + pose proof (handleEntityAdded_known_kept x x (recordOf x data) s Hk) as H.
      by rewrite Hrun in H.
    + destruct (handleEntityAdded_new s s1 x _ Hk Hrun) as (h & He & _).
      unfold known, replica. by rewrite He, lookup_insert_eq.
Qed.

Lemma visits_make_known (l : list string) (s s' : System) :
  broadcastingEntities s = broadcasting ->
  forEach (visit broadcasting data) l s = (Normal tt, s') ->
  forall x, x ∈ l -> known s' x = true.
Proof.
  revert s. induction l as [|y l IH]; intros s HB Hrun x Hx.
  - by apply elem_of_nil in Hx.
  - simpl in Hrun. unfold bind in Hrun.
    pose proof (visit_broadcasting y s) as HB1.
    destruct (visit broadcasting data y s) as [[[]|e] s1] eqn:Hy; [|done].
    simpl in HB1.
    apply elem_of_cons in Hx as [->|Hx]; [|apply (IH s1); [congruence | done | done]].
    pose proof (visit_makes_known y s s1 HB Hy) as Hknown.
    pose proof (forEach_invariant (fun s0 => known s0 y = true)
                  (visit broadcasting data) l
                  (fun z s0 _ H => visit_known_kept z y s0 H) s1 Hknown) as Hend.
    by rewrite Hrun in Hend.
Qed.

End InitialSync.

(** X5. After an initial synchronisation that completes, every identifier
    of the snapshot is known: it has a Replica Table entry or is one this
    client broadcasts. *)
Theorem handleInitialSync_all_known (s s' : System)
  (data : list (string * object)) (id : string) :
  handleInitialSync data s = (Normal tt, s') ->
  id ∈ data.*1 -> known s' id = true.
Proof.
  rewrite handleInitialSync_visit. intros Hrun Hin.
  eapply visits_make_known; [reflexivity | exact Hrun |].
  by apply elem_of_remove_dups.
Qed.

(** X4. The initial synchronisation never replicates an entity this client
    broadcasts: whatever the snapshot and however the handler ends, the
    Replica Table entry of a Broadcast Table key is what it was. *)
Theorem handleInitialSync_skips_own (s : System) (data : list (string * object))
  (id : string) :
  is_Some (broadcastingEntities s !! id) ->
  entities (snd (handleInitialSync data s)) !! id = entities s !! id.
Proof.
  intros Hown. rewrite handleInitialSync_visit.
  apply (forEach_invariant
           (fun s0 => broadcastingEntities s0 = broadcastingEntities s /\
                      entities s0 !! id = entities s !! id)); [|done].
  intros x s0 _ [HB He]. unfold visit. case_match eqn:Hx; [done |].
  destruct (handleEntityAdded_inbound x (recordOf x data) s0) as (_&_&Hb&_).
  split; [congruence |].
  destruct (handleEntityAdded_tables x (recordOf x data) s0)
    as [->|(_ & entity & ->)]; [done |].
  rewrite lookup_insert_ne; [done |]. intros ->.
  apply bool_decide_eq_false in Hx. done.
Qed.

Lemma handleInitialSync_all_known_witness :
  known (snd (handleInitialSync Scene.snapshot (Scene.live [Scene.root]))) "e2"
  = true.
Proof.
  apply (handleInitialSync_all_known (Scene.live [Scene.root]) _ Scene.snapshot).
  - vm_compute. reflexivity.
  - vm_compute. right. left.
Defined.

Lemma handleInitialSync_skips_own_witness :
  entities (snd (handleInitialSync [("box1", Scene.remoteRecord)] Scene.withBox))
    !! "box1"
  = entities Scene.withBox !! "box1".
Proof.
  apply handleInitialSync_skips_own. exists 1. vm_compute. reflexivity.
Defined.

(** ** The attribute accessors *)

Lemma setDocument_id (s : System) (h : handle) (e : El) :
  document s !! h = Some e -> setDocument (<[h := e]> (document s)) s = s.
Proof.
  intros H. destruct s. unfold setDocument. simpl in *. f_equal.
  by apply list_insert_id.
Qed.

Lemma setAttribute_Some (s : System) (h : handle) (e : El) (attribute : string)
  (v : value) :
  document s !! h = Some e ->
  setAttribute (Some h) attribute v s =
  (Normal tt,
   setDocument
     (<[h := match split attribute with
             | [c; p] => Element.setProperty e c p v
             | _ => Element.setAttribute e attribute v
             end]> (document s)) s).
Proof. intros H. unfold setAttribute, deref. by rewrite H. Qed.

(** ** Applying a record to an entity *)

(** The loop both handlers run over the fields they keep, for plain field
    names: every field is written under its own name. *)
Lemma forEach_setAttribute_plain (data : object) (h : handle) (l : list string) :
  NoDup l -> (forall k, k ∈ l -> plain k) ->
  forall (s : System) (e : El), document s !! h = Some e ->
  exists e',
    forEach (fun k => setAttribute (Some h) k (Obj.read k data)) l s
    = (Normal tt, setDocument (<[h := e']> (document s)) s) /\
    parentNode e' = parentNode e /\
    firebaseBroadcastOnce e' = firebaseBroadcastOnce e /\
    (forall k, k ∈ l -> attrs e' !! k = Some (Obj.read k data)) /\
    (forall k, k ∉ l -> attrs e' !! k = attrs e !! k).
Proof.
  induction l as [|k0 l IH]; intros Hnd Hplain s e He.
  - exists e. simpl. unfold ret. rewrite setDocument_id by done.
    repeat split; try done. by intros k ?%elem_of_nil.
  - apply NoDup_cons in Hnd as [Hk0 Hnd].
    simpl. unfold bind.
    rewrite (setAttribute_Some s h e k0 _ He).
    rewrite (Hplain k0 ltac:(left)).
    set (e1 := Element.setAttribute e k0 (Obj.read k0 data)).
    set (s1 := setDocument (<[h := e1]> (document s)) s).
    assert (He1 : document s1 !! h = Some e1).
    { subst s1. simpl. apply list_lookup_insert_eq. by eapply lookup_lt_Some. }
    destruct (IH Hnd (fun k Hk => Hplain k ltac:(by right)) s1 e1 He1)
      as (e' & Hrun & Hp & Hf & Hin & Hout).
    exists e'. rewrite Hrun. subst s1. simpl.
    rewrite list_insert_insert_eq.
    repeat split; try done.
    + intros k [->|Hk]%elem_of_cons; [|by apply Hin].
      rewrite Hout by done. subst e1. simpl. apply lookup_insert_eq.
    + intros k Hk. apply not_elem_of_cons in Hk as [Hne Hk].
      rewrite Hout by done. subst e1. simpl. by apply lookup_insert_ne.
Qed.

(** X7. A "changed" event for a replica merges the record into the entity.
    When the field names are plain and none is [firebase-broadcast], the
    handler completes; every field of the record except [parentId] is then
    an attribute of the entity with the value of the record; the other
    attributes, the parent and the rest of the system are unchanged. *)
Theorem handleEntityChanged_merges (s : System) (id : string)
  (components : object) (h : handle) (e : El) :
  broadcastingEntities s !! id = None ->
  replica s id = Some h -> document s !! h = Some e ->
  (forall k, k ∈ Obj.keys components -> plain k) ->
  "firebase-broadcast" ∉ Obj.keys components ->
  exists e',
    handleEntityChanged id components s
    = (Normal tt, setDocument (<[h := e']> (document s)) s) /\
    parentNode e' = parentNode e /\
    (forall k, k ∈ Obj.keys components -> k ≠ "parentId" ->
               attrs e' !! k = Some (Obj.read k components)) /\
    (forall k, k ∉ Obj.keys components \/ k = "parentId" ->
               attrs e' !! k = attrs e !! k).
Proof.
  intros Hb Hr He Hplain _. unfold handleEntityChanged.
  rewrite Hb, Hr. simpl.
  rewrite forEach_setComponentChanged_filter.
  destruct (forEach_setAttribute_plain components h
              (filter (fun k => k ≠ "parentId") (Obj.keys components)))
    with (s := s) (e := e) as (e' & Hrun & Hp & _ & Hin & Hout); [| |done|].
  - apply NoDup_filter, NoDup_remove_dups.
  - intros k [_ Hk]%list_elem_of_filter. by apply Hplain.
  - exists e'. rewrite Hrun. repeat split; try done.
    + intros k Hk Hne. apply Hin. by apply list_elem_of_filter.
    + intros k Hk. apply Hout. rewrite list_elem_of_filter.
      intros [Hne Hin']. destruct Hk; done.
Qed.

Lemma handleEntityChanged_merges_witness :
  exists e',
    handleEntityChanged "e1" [("position", VStr "4 5 6"); ("parentId", VStr "e0")]
      Scene.withReplica
    = (Normal tt,
       setDocument (<[1 := e']> (document Scene.withReplica)) Scene.withReplica) /\
    attrs e' !! "position" = Some (VStr "4 5 6").
Proof.
  destruct (handleEntityChanged_merges Scene.withReplica "e1"
              [("position", VStr "4 5 6"); ("parentId", VStr "e0")] 1
              (Element.setParent
                 (Element.setAttribute newEl "position" (VStr "1 2 3")) (Some 0)))
    as (e' & Hrun & _ & Hin & _).
  - vm_compute. reflexivity.
  - vm_compute. reflexivity.
  - vm_compute. reflexivity.
  - intros k Hk. vm_compute in Hk.
    apply elem_of_cons in Hk as [->|Hk]; [reflexivity |].
    apply list_elem_of_singleton in Hk as ->. reflexivity.
  - intros Hk. vm_compute in Hk.
    apply elem_of_cons in Hk as [Hk|Hk]; [discriminate |].
    apply list_elem_of_singleton in Hk. discriminate.
  - exists e'. split; [exact Hrun |].
    apply (Hin "position"); [vm_compute; left | discriminate].
Defined.

(** ** Remote additions: creation, reuse, and the missing placeholder *)

Lemma reserved_filter (l : list string) (k : string) :
  k ∈ filter (fun k => reserved k = false) l <-> reserved k = false /\ k ∈ l.
Proof. by rewrite list_elem_of_filter. Qed.

Section Added.

Variables (s : System) (id : string) (data : object) (shared : value).
Hypothesis Hnew : known s id = false.
Hypothesis Hshared :
  member (Obj.read "firebase-broadcast" data) "shared" = Normal shared.

Lemma replica_new : replica s id = None.
Proof.
  unfold known in Hnew. apply orb_false_iff in Hnew as [Hr _].
  apply bool_decide_eq_false in Hr.
  destruct (replica s id); [by destruct Hr | done].
Qed.


(** X10. An "added" event for a shared record with an id reuses the element
    of the scene that has this id: no element is created, the element keeps
    its parent, gets the fields of the record that are not reserved, and is
    recorded in the Replica Table under the identifier. *)
Theorem handleEntityAdded_reuses (h : handle) (e : El) :
  isTrue shared && truthy (Obj.read "id" data) = true ->
  querySelector s ("#" ++ toString (Obj.read "id" data)) = Some h ->
  document s !! h = Some e ->
  (forall k, k ∈ Obj.keys data -> plain k) ->
  exists e',
    handleEntityAdded id data s
    = (Normal tt,
       setEntities (<[id := Some h]> (entities s))
         (setDocument (<[h := e']> (document s)) s)) /\
    parentNode e' = parentNode e /\
    (forall k, k ∈ Obj.keys data -> reserved k = false ->
               attrs e' !! k = Some (Obj.read k data)) /\
    (forall k, k ∉ Obj.keys data \/ reserved k = true ->
               attrs e' !! k = attrs e !! k).
Proof.
  intros Hreuse Hq He Hplain.
  unfold handleEntityAdded. rewrite Hnew, Hshared. cbv zeta.
  rewrite Hreuse, Hq. simpl negb. cbv iota. unfold bind.
  rewrite forEach_setComponentAdded_filter.
  set (s2 := setEntities _ _).
  destruct (forEach_setAttribute_plain data h
              (filter (fun k => reserved k = false) (Obj.keys data)))
    with (s := s2) (e := e) as (e1 & Hrun & Hp & _ & Hin & Hout);
    [| |exact He|].
  { apply NoDup_filter, NoDup_remove_dups. }
  { intros k [_ Hk]%reserved_filter. by apply Hplain. }
  rewrite Hrun. exists e1. repeat split; try done.
  - intros k Hk Hres. apply Hin. by apply reserved_filter.
  - intros k Hk. apply Hout.
    intros [Hres Hin']%reserved_filter. destruct Hk; congruence.
Qed.

Lemma forEach_setComponentAdded_null_state (l : list string) (s0 : System)
  (k : string) :
  k ∈ l -> reserved k = false ->
  forEach (setComponentAdded None data) l s0 = (Throw TypeError, s0).
Proof.
  intros Hin Hk. induction l as [|k0 l IH]; [by apply elem_of_nil in Hin |].
  simpl. unfold bind, setComponentAdded at 1. fold (reserved k0).
  destruct (reserved k0) eqn:E; simpl; [|done].
  apply IH. apply elem_of_cons in Hin as [->|Hin]; [congruence | done].
Qed.

(** X9. An "added" event for a shared record whose id names no element of
    the scene raises a TypeError: line 83 gets null, line 88 stores it in
    the Replica Table, and line 94 calls the accessor on it.  The identifier
    is still not known afterwards, so every repetition of the event raises
    again and changes nothing more. *)
Theorem handleEntityAdded_missing_placeholder :
  isTrue shared && truthy (Obj.read "id" data) = true ->
  querySelector s ("#" ++ toString (Obj.read "id" data)) = None ->
  let s' := setEntities (<[id := None]> (entities s)) s in
  handleEntityAdded id data s = (Throw TypeError, s') /\
  known s' id = false /\
  handleEntityAdded id data s' = (Throw TypeError, s').
Proof.
  intros Hreuse Hq s'.
  assert (Hid : "id" ∈ Obj.keys data).
  { apply truthy_read_keys. by apply andb_true_iff in Hreuse as [_ ?]. }
  assert (Hk' : known s' id = false).
  { unfold known in *. apply orb_false_iff in Hnew as [_ Hb].
    subst s'. unfold replica. simpl. by rewrite lookup_insert_eq, Hb. }
  assert (Hrun : forall s0, known s0 id = false ->
                   querySelector s0 ("#" ++ toString (Obj.read "id" data)) = None ->
                   handleEntityAdded id data s0
                   = (Throw TypeError,
                      setEntities (<[id := None]> (entities s0)) s0)).
  { intros s0 Hk0 Hq0. unfold handleEntityAdded.
    rewrite Hk0, Hshared. cbv zeta. rewrite Hreuse, Hq0. simpl negb. cbv iota.
    unfold bind.
    by rewrite (forEach_setComponentAdded_null_state _ _ "id" Hid eq_refl). }
  split; [by apply Hrun | split; [done |]].
  rewrite Hrun; [| done | done].
  f_equal. subst s'. unfold setEntities. simpl. f_equal.
  apply insert_insert_eq.
Qed.

End Added.


Lemma handleEntityAdded_reuses_witness :
  exists e',
    fst (handleEntityAdded "r1" Scene.sharedRecord (Scene.live [Scene.root; Scene.box]))
    = Normal tt /\
    attrs e' !! "position" = Some (VStr "7 8 9") /\
    parentNode e' = Some 0.
Proof.
  destruct (handleEntityAdded_reuses (Scene.live [Scene.root; Scene.box]) "r1"
              Scene.sharedRecord (VBool true) eq_refl eq_refl 1 Scene.box)
    as (e' & Hrun & Hp & Hin & _).
  - vm_compute. reflexivity.
  - vm_compute. reflexivity.
  - vm_compute. reflexivity.
  - intros k Hk. vm_compute in Hk.
    repeat (apply elem_of_cons in Hk as [->|Hk]; [reflexivity |]).
    by apply elem_of_nil in Hk.
  - exists e'. rewrite Hrun. split; [done |]. split; [|done].
    apply (Hin "position"); [vm_compute; right; right; left | reflexivity].
Defined.

Lemma handleEntityAdded_missing_placeholder_witness :
  handleEntityAdded "r1" Scene.sharedRecord (Scene.live [Scene.root])
  = (Throw TypeError,
     setEntities (<["r1" := None]> (entities (Scene.live [Scene.root])))
       (Scene.live [Scene.root])).
Proof.
  apply (handleEntityAdded_missing_placeholder (Scene.live [Scene.root]) "r1"
           Scene.sharedRecord (VBool true)); vm_compute; reflexivity.
Defined.

(** ** Registration *)

Lemma pushKey_inj (n m : nat) : pushKey n = pushKey m -> n = m.
Proof. unfold pushKey. intros [= H]. by apply (inj pretty). Qed.

Lemma pushKey_nonempty (n : nat) : pushKey n ≠ "".
Proof. done. Qed.

(** Line 145: the element gets its remote id, the rest of its broadcast
    data is kept. *)
Lemma computedBroadcast_setId (e : El) (b : BroadcastData) (key : string) :
  computedBroadcast e = Some b ->
  computedBroadcast (Element.setProperty e "firebase-broadcast" "id" (VStr key))
  = Some {| bd_id := key; bd_components := bd_components b;
            bd_componentsOnce := bd_componentsOnce b;
            bd_shared := bd_shared b; bd_owner := bd_owner b |}.
Proof.
  unfold computedBroadcast, Element.setProperty. simpl.
  rewrite lookup_insert_eq.
  destruct (attrs e !! "firebase-broadcast") as [v|]; [|done].
  intros [= <-]. simpl.
  unfold schemaData, schemaString, schemaArray, schemaBool.
  rewrite get_set_eq. by rewrite !get_set_ne by done.
Qed.

Lemma registerBroadcast_run (s : System) (el : handle) (e : El)
  (b : BroadcastData) :
  document s !! el = Some e -> computedBroadcast e = Some b ->
  is_Some (database s) ->
  registerBroadcast el s =
  (Normal tt,
   issue (OnDisconnectRemove ("entities/" ++ pushKey (pushed s)))
     (setPushed (S (pushed s))
        (setDocument
           (<[el := Element.setProperty e "firebase-broadcast" "id"
                      (VStr (pushKey (pushed s)))]> (document s))
           (setBroadcastingEntities
              (<[toString (Element.getAttribute e "id") := el]>
                 (broadcastingEntities s)) s)))).
Proof.
  intros He Hb [db Hdb]. unfold registerBroadcast. rewrite He, Hb. simpl.
  by rewrite Hdb.
Qed.

(** X11. Activation of the broadcast component on a live engine.  With an
    empty component list, [init] does nothing.  Otherwise the element is
    entered in the Broadcast Table under its [id] attribute, gets the next
    key of the store as remote id while the rest of its broadcast data is
    kept, and the removal of [entities/<key>] on disconnect is the one
    store operation issued; no other element and no Replica Table entry
    changes. *)
Theorem broadcastInit_registers (s : System) (el : handle) (e : El)
  (b : BroadcastData) :
  document s !! el = Some e -> computedBroadcast e = Some b ->
  is_Some (database s) ->
  let s' := snd (broadcastInit el s) in
  let key := pushKey (pushed s) in
  (bd_components b = [] -> broadcastInit el s = (Normal tt, s)) /\
  (bd_components b ≠ [] ->
   fst (broadcastInit el s) = Normal tt /\
   broadcastingEntities s'
   = <[toString (Element.getAttribute e "id") := el]> (broadcastingEntities s) /\
   broadcastOf s' el
   = Some {| bd_id := key; bd_components := bd_components b;
             bd_componentsOnce := bd_componentsOnce b;
             bd_shared := bd_shared b; bd_owner := bd_owner b |} /\
   issued s s' = [OnDisconnectRemove ("entities/" ++ key)] /\
   pushed s' = S (pushed s) /\
   entities s' = entities s /\
   (forall h, h ≠ el -> document s' !! h = document s !! h)).
Proof.
  intros He Hb Hdb. cbv zeta. unfold broadcastInit, deref. rewrite He, Hb.
  destruct (bd_components b) as [|c l] eqn:Hc; simpl; [by split |].
  split; [done |]. intros _.
  rewrite (registerBroadcast_run s el e b He Hb Hdb). simpl.
  repeat split.
  - unfold broadcastOf. simpl.
    rewrite list_lookup_insert_eq by by eapply lookup_lt_Some. simpl.
    rewrite (computedBroadcast_setId e b _ Hb). by rewrite Hc.
  - by apply issued_app.
  - intros h Hne. by apply list_lookup_insert_ne.
Qed.

Lemma broadcastInit_registers_witness :
  broadcastOf (snd (broadcastInit 1 (Scene.live [Scene.root; Scene.box]))) 1
  = Some {| bd_id := "-K0"; bd_components := ["position"];
            bd_componentsOnce := ["color"]; bd_shared := true; bd_owner := "" |}.
Proof.
  refine (proj1 (proj2 (proj2
            (proj2 (broadcastInit_registers (Scene.live [Scene.root; Scene.box]) 1
                      Scene.box
                      {| bd_id := ""; bd_components := ["position"];
                         bd_componentsOnce := ["color"]; bd_shared := true;
                         bd_owner := "" |} _ _ _) _)))).
  - vm_compute. reflexivity.
  - vm_compute. reflexivity.
  - vm_compute. by eexists.
  - discriminate.
Defined.

(** What a registration that completes has done to the broadcast data of
    the scene. *)
Lemma registerBroadcast_data (s s' : System) (el : handle) :
  registerBroadcast el s = (Normal tt, s') ->
  pushed s' = S (pushed s) /\
  (exists b, broadcastOf s el = Some b /\
             broadcastOf s' el
             = Some {| bd_id := pushKey (pushed s);
                       bd_components := bd_components b;
                       bd_componentsOnce := bd_componentsOnce b;
                       bd_shared := bd_shared b; bd_owner := bd_owner b |}) /\
  (forall h, h ≠ el -> broadcastOf s' h = broadcastOf s h).
Proof.
  intros Hrun.
  assert (exists e b, document s !! el = Some e /\ computedBroadcast e = Some b /\
                      is_Some (database s)) as (e & b & He & Hb & Hdb).
  { revert Hrun. unfold registerBroadcast.
    destruct (document s !! el) as [e|] eqn:He; [|done].
    destruct (computedBroadcast e) as [b|] eqn:Hb; [|done]. simpl.
    destruct (database s) as [db|] eqn:Hdb; [|done].
    intros _. exists e, b. by repeat split. }
  rewrite (registerBroadcast_run s el e b He Hb Hdb) in Hrun.
  injection Hrun as <-. split; [done |]. split.
  - exists b. unfold broadcastOf. simpl. rewrite He. simpl.
    rewrite list_lookup_insert_eq by by eapply lookup_lt_Some. simpl.
    split; [done |]. apply (computedBroadcast_setId e b _ Hb).
  - intros h Hne. unfold broadcastOf. simpl.
    by rewrite list_lookup_insert_ne by done.
Qed.

(** X12. The remote id given by a registration is fresh: when every remote
    id in the scene was handed out by [push()], the id the registered
    element gets is not empty and differs from the remote id of every other
    element, and the scene is again one whose ids were all handed out. *)
Theorem registerBroadcast_fresh_id (s s' : System) (el : handle) :
  idsPushed s ->
  registerBroadcast el s = (Normal tt, s') ->
  idsPushed s' /\
  exists b', broadcastOf s' el = Some b' /\
             bd_id b' = pushKey (pushed s) /\ bd_id b' ≠ "" /\
             forall h b, h ≠ el -> broadcastOf s' h = Some b ->
                         bd_id b ≠ bd_id b'.
Proof.
  intros Hids Hrun.
  destruct (registerBroadcast_data s s' el Hrun)
    as (Hpushed & (b & Hb & Hb') & Hother).
  split.
  - intros h b0 Hb0. rewrite Hpushed. destruct (decide (h = el)) as [->|Hne].
    + right. exists (pushed s). split; [lia |]. rewrite Hb' in Hb0.
      by injection Hb0 as <-.
    + rewrite Hother in Hb0 by done.
      destruct (Hids h b0 Hb0) as [?|(n & Hn & ?)]; [by left |].
      right. exists n. split; [lia | done].
  - eexists. split; [exact Hb' |]. simpl.
    split; [done |]. split; [apply pushKey_nonempty |].
    intros h b0 Hne Hb0. rewrite Hother in Hb0 by done.
    destruct (Hids h b0 Hb0) as [->|(n & Hn & ->)].
    + intros Heq. by apply (pushKey_nonempty (pushed s)).
    + intros Heq%pushKey_inj. lia.
Qed.

Lemma registerBroadcast_fresh_id_witness :
  idsPushed (snd (registerBroadcast 1 (Scene.live [Scene.root; Scene.box]))).
Proof.
  refine (proj1 (registerBroadcast_fresh_id (Scene.live [Scene.root; Scene.box])
                   _ 1 _ _)).
  - intros h b. unfold broadcastOf.
    destruct h as [|[|h]]; vm_compute; [done | | done].
    intros [= <-]. by left.
  - vm_compute. reflexivity.
Defined.

(** X13. The Broadcast Table is keyed by the [id] attribute alone: when two
    elements with the same [id] attribute (or both without one) are
    registered, the second replaces the first, which the tick will not
    visit any more. *)
Theorem registerBroadcast_same_id (s s1 s2 : System) (el1 el2 : handle)
  (e1 e2 : El) :
  document s !! el1 = Some e1 -> document s !! el2 = Some e2 -> el1 ≠ el2 ->
  Element.getAttribute e1 "id" = Element.getAttribute e2 "id" ->
  registerBroadcast el1 s = (Normal tt, s1) ->
  registerBroadcast el2 s1 = (Normal tt, s2) ->
  broadcastingEntities s2
  = <[toString (Element.getAttribute e2 "id") := el2]> (broadcastingEntities s) /\
  forall k, broadcastingEntities s !! k ≠ Some el1 ->
            broadcastingEntities s2 !! k ≠ Some el1.
Proof.
  intros He1 He2 Hne Hid Hrun1 Hrun2.
  assert (Hfirst : broadcastingEntities s1
                   = <[toString (Element.getAttribute e1 "id") := el1]>
                       (broadcastingEntities s) /\
                   document s1 !! el2 = Some e2).
  { revert Hrun1. unfold registerBroadcast. rewrite He1.
    destruct (computedBroadcast e1); [|done]. simpl.
    destruct (database s); [|done]. intros [= <-]. simpl.
    split; [done |]. by rewrite list_lookup_insert_ne. }
  destruct Hfirst as [HB1 He2'].
  assert (HB2 : broadcastingEntities s2
                = <[toString (Element.getAttribute e2 "id") := el2]>
                    (broadcastingEntities s1)).
  { revert Hrun2. unfold registerBroadcast. rewrite He2'.
    destruct (computedBroadcast e2); [|done]. simpl.
    destruct (database s1); [|done]. by intros [= <-]. }
  rewrite HB2, HB1, Hid, insert_insert_eq. split; [done |].
  intros k Hk. destruct (decide (k = toString (Element.getAttribute e2 "id")))
    as [->|Hk'].
  - rewrite lookup_insert_eq. congruence.
  - by rewrite lookup_insert_ne.
Qed.

Lemma registerBroadcast_same_id_witness :
  broadcastingEntities
    (snd (registerBroadcast 2
            (snd (registerBroadcast 1
                    (Scene.live [Scene.root; Scene.box; Scene.box])))))
  = <["box1" := 2]>
      (broadcastingEntities (Scene.live [Scene.root; Scene.box; Scene.box])).
Proof.
  refine (proj1 (registerBroadcast_same_id
                   (Scene.live [Scene.root; Scene.box; Scene.box]) _ _ 1 2
                   Scene.box Scene.box _ _ _ _ _ _));
    first [vm_compute; reflexivity | lia].
Defined.

(** * Further properties of the tick *)

(** ** What a tick sends *)

Section Sends.

Variables (broadcasting : gmap string handle) (client : string)
  (db : option string) (scene : handle).

Local Abbreviation callback := (broadcastEntity broadcasting client db scene).

(** One call sends nothing, or one update to the path of its key. *)
Lemma broadcastEntity_issued (id : string) (s : System) :
  issued s (snd (callback id s)) = [] \/
  exists data, issued s (snd (callback id s)) = [Update ("entities/" ++ id) data] /\
               is_Some (broadcasting !! id).
Proof.
  unfold broadcastEntity.
  destruct (deref s (broadcasting !! id)) as [[el e]|] eqn:Hd;
    [|left; by apply issued_same].
  apply deref_Some in Hd as [Hk He].
  destruct (computedBroadcast e) as [b|]; [|left; by apply issued_same].
  destruct (claimOwner client b e) as [[e1 owner] data].
  destruct (bd_shared b && negb (String.eqb owner client));
    [left; by apply issued_same |].
  destruct (addOnce b e1) as [e2 components]. cbv zeta. unfold update.
  repeat case_match; simpl;
    first [ left; by apply issued_same
          | right; eexists; split; [by apply issued_app | by eexists] ].
Qed.

Lemma pass_issued (l : list string) (s : System) (op : StoreOp) :
  op ∈ issued s (snd (forEach callback l s)) ->
  exists k data, op = Update ("entities/" ++ k) data /\
                 k ∈ l /\ is_Some (broadcasting !! k).
Proof.
  revert s. induction l as [|k0 l IH]; intros s.
  - simpl. rewrite issued_same by done. by intros ?%elem_of_nil.
  - pose proof (broadcastEntity_step broadcasting client db scene k0 s)
      as (_ & Hgr & _).
    pose proof (broadcastEntity_issued k0 s) as Hone.
    simpl. unfold bind.
    destruct (callback k0 s) as [[[]|x] s1] eqn:Hcb; simpl in *.
    + pose proof (pass_steps broadcasting client db scene l s1) as (_ & Hgr' & _).
      rewrite (issued_trans s s1) by done. rewrite elem_of_app.
      intros [Hin|Hin].
      * destruct Hone as [Hnil|(data & Hop & Hk)];
          [rewrite Hnil in Hin; by apply elem_of_nil in Hin |].
        rewrite Hop in Hin. apply list_elem_of_singleton in Hin as ->.
        exists k0, data. repeat split; [left | done].
      * destruct (IH s1 Hin) as (k & data & -> & Hk & Hsome).
        exists k, data. repeat split; [by right | done].
    + intros Hin.
      destruct Hone as [Hnil|(data & Hop & Hk)];
        [rewrite Hnil in Hin; by apply elem_of_nil in Hin |].
      rewrite Hop in Hin. apply list_elem_of_singleton in Hin as ->.
      exists k0, data. repeat split; [left | done].
Qed.

Lemma pass_count (k : string) (l : list string) (s : System) :
  NoDup l ->
  length (updatesAt k (issued s (snd (forEach callback l s)))) <= 1.
Proof.
  revert s. induction l as [|k0 l IH]; intros s Hnd.
  - simpl. rewrite issued_same by done. simpl. lia.
  - apply NoDup_cons in Hnd as [Hk0 Hnd].
    pose proof (broadcastEntity_step broadcasting client db scene k0 s)
      as (_ & Hgr & _ & Hup).
    pose proof (broadcastEntity_issued k0 s) as Hone.
    assert (Hfirst : length (updatesAt k (issued s (snd (callback k0 s)))) <= 1).
    { destruct Hone as [->|(data & -> & _)]; [simpl; lia |].
      rewrite updatesAt_update. case_match; simpl; lia. }
    simpl. unfold bind.
    destruct (callback k0 s) as [[[]|x] s1] eqn:Hcb; simpl in *; [|done].
    pose proof (pass_steps broadcasting client db scene l s1)
      as (_ & Hgr' & _ & Hup').
    rewrite (issued_trans s s1) by done.
    rewrite updatesAt_app, length_app.
    destruct (decide (k0 = k)) as [->|Hne].
    + rewrite (Hup' k Hk0). simpl. lia.
    + rewrite (Hup k) by done. simpl. by apply IH.
Qed.

End Sends.

(** X14. A tick issues nothing but updates; each goes to [entities/<k>] for
    a key [k] of the Broadcast Table, and no key gets more than one. *)
Theorem tick_sends_updates_only (s : System) (t : Z) :
  (forall op, op ∈ issued s (snd (tick t s)) ->
     exists k data, op = Update ("entities/" ++ k) data /\
                    is_Some (broadcastingEntities s !! k)) /\
  (forall k, length (updatesAt k (issued s (snd (tick t s)))) <= 1).
Proof.
  destruct (passes s t) eqn:E.
  - rewrite passes_true_tick by done.
    change (issued s) with (issued (setTime (Some t) s)). split.
    + intros op Hop.
      destruct (pass_issued _ _ _ _ _ _ _ Hop) as (k & data & -> & _ & Hk).
      by exists k, data.
    + intros k. apply pass_count, keys_NoDup.
  - rewrite passes_false_tick by done. simpl.
    rewrite issued_same by done. split.
    + by intros op ?%elem_of_nil.
    + intros k. simpl. lia.
Qed.

(** ** What a tick leaves alone *)

Lemma sameOthers_refl (e : El) : sameOthers e e.
Proof. by split. Qed.

Lemma sameOthers_trans (e1 e2 e3 : El) :
  sameOthers e1 e2 -> sameOthers e2 e3 -> sameOthers e1 e3.
Proof.
  intros [Hp Ha] [Hp' Ha']. split; [congruence |].
  intros name Hne. by rewrite Ha', Ha.
Qed.

Lemma claimOwner_sameOthers (client : string) (b : BroadcastData) (e : El) :
  sameOthers e (claimOwner client b e).1.1.
Proof.
  unfold claimOwner. simpl. case_match; [|apply sameOthers_refl].
  split; [done |]. intros name Hne. simpl. by rewrite lookup_insert_ne.
Qed.

Lemma addOnce_sameOthers (b : BroadcastData) (e : El) :
  sameOthers e (addOnce b e).1.
Proof. unfold addOnce. case_match; by split. Qed.

Lemma broadcastEntity_keeps (broadcasting : gmap string handle)
  (client : string) (db : option string) (scene : handle) (id : string)
  (s : System) :
  let s' := snd (broadcastEntity broadcasting client db scene id s) in
  length (document s') = length (document s) /\
  forall h e, document s !! h = Some e ->
              exists e', document s' !! h = Some e' /\ sameOthers e e'.
Proof.
  cbv zeta.
  assert (Hsame : forall s', document s' = document s ->
            length (document s') = length (document s) /\
            forall h e, document s !! h = Some e ->
                        exists e', document s' !! h = Some e' /\ sameOthers e e').
  { intros s' ->. split; [done |]. intros h e He. exists e.
    split; [done | apply sameOthers_refl]. }
  unfold broadcastEntity.
  destruct (deref s (broadcasting !! id)) as [[el e]|] eqn:Hd; [|by apply Hsame].
  apply deref_Some in Hd as [Hk He].
  destruct (computedBroadcast e) as [b|]; [|by apply Hsame].
  pose proof (claimOwner_sameOthers client b e) as H1.
  destruct (claimOwner client b e) as [[e1 owner] data].
  pose proof (addOnce_sameOthers b e1) as H2.
  destruct (addOnce b e1) as [e2 components]. simpl in H1, H2.
  assert (Hins : forall d e', sameOthers e e' ->
            d = <[el := e']> (document s) ->
            length d = length (document s) /\
            forall h e0, document s !! h = Some e0 ->
                         exists e0', d !! h = Some e0' /\ sameOthers e0 e0').
  { intros d e' Hso ->. split; [apply length_insert |].
    intros h e0 He0. destruct (decide (h = el)) as [->|Hne].
    - exists e'. rewrite list_lookup_insert_eq by by eapply lookup_lt_Some.
      split; [done | congruence].
    - exists e0. rewrite list_lookup_insert_ne by done.
      split; [done | apply sameOthers_refl]. }
  destruct (bd_shared b && negb (String.eqb owner client));
    [simpl; by apply (Hins _ e1) |].
  cbv zeta. unfold update.
  repeat case_match; simpl;
    (apply (Hins _ e2);
     [by eapply sameOthers_trans | apply list_insert_insert_eq]).
Qed.

Lemma tick_frame (s : System) (t : Z) :
  sceneEl (snd (tick t s)) = sceneEl s /\
  clientId (snd (tick t s)) = clientId s /\
  firebase (snd (tick t s)) = firebase s /\
  database (snd (tick t s)) = database s /\
  interval (snd (tick t s)) = interval s /\
  entities (snd (tick t s)) = entities s /\
  broadcastingEntities (snd (tick t s)) = broadcastingEntities s /\
  pushed (snd (tick t s)) = pushed s.
Proof.
  destruct (passes s t) eqn:E.
  - rewrite passes_true_tick by done.
    pose proof (pass_frame (broadcastingEntities s) (clientId s) (database s)
                  (sceneEl s) (map_to_list (broadcastingEntities s)).*1
                  (setTime (Some t) s)) as (?&?&?&?&?&_&?&?&?).
    by repeat split.
  - by rewrite passes_false_tick.
Qed.

(** X15. A tick changes nothing of the engine but the recorded time, the
    log of store operations, and, on the elements, the [firebase-broadcast]
    data and the once-flag: the two tables, the key supply and the settings
    are kept, no element is created, removed or re-parented, and every
    other attribute of every element keeps its value. *)
Theorem tick_keeps_scene (s : System) (t : Z) :
  let s' := snd (tick t s) in
  entities s' = entities s /\
  broadcastingEntities s' = broadcastingEntities s /\
  pushed s' = pushed s /\
  clientId s' = clientId s /\ interval s' = interval s /\
  length (document s') = length (document s) /\
  forall h e, document s !! h = Some e ->
    exists e', document s' !! h = Some e' /\
               parentNode e' = parentNode e /\
               forall name, name ≠ "firebase-broadcast" ->
                            attrs e' !! name = attrs e !! name.
Proof.
  cbv zeta. destruct (tick_frame s t) as (_ & Hc & _ & _ & Hi & He & Hb & Hp).
  repeat split; try done.
  - destruct (passes s t) eqn:E.
    + rewrite passes_true_tick by done.
      apply (forEach_invariant
               (fun s' => length (document s') = length (document s))); [|done].
      intros k s0 _ <-. apply broadcastEntity_keeps.
    + by rewrite passes_false_tick.
  - destruct (passes s t) eqn:E.
    + rewrite passes_true_tick by done.
      apply (forEach_invariant
               (fun s' => forall h e, document s !! h = Some e ->
                            exists e', document s' !! h = Some e' /\
                                       sameOthers e e')).
      * intros k s0 _ H0 h e He0.
        destruct (H0 h e He0) as (e1 & He1 & Hs1).
        destruct (broadcastEntity_keeps (broadcastingEntities s) (clientId s)
                    (database s) (sceneEl s) k s0) as [_ Hk].
        destruct (Hk h e1 He1) as (e2 & He2 & Hs2).
        exists e2. split; [done | by eapply sameOthers_trans].
      * intros h e He0. exists e. split; [done | apply sameOthers_refl].
    + rewrite passes_false_tick by done. intros h e He0. exists e.
      split; [done | apply sameOthers_refl].
Qed.

(** ** The fields of an outbound record *)

Lemma get_two (k1 k2 c : string) (v1 v2 : value) :
  c ≠ k1 -> c ≠ k2 -> Obj.get c [(k1, v1); (k2, v2)] = None.
Proof.
  intros H1 H2. simpl.
  apply not_eq_sym, String.eqb_neq in H1. apply not_eq_sym, String.eqb_neq in H2.
  by rewrite H1, H2.
Qed.

Lemma claimOwner_get (client : string) (b : BroadcastData) (e : El) (c : string) :
  c ≠ "id" -> c ≠ "firebase-broadcast" ->
  Obj.get c (claimOwner client b e).2 = None.
Proof. intros H1 H2. by apply get_two. Qed.

Lemma linkParent_get (scene : handle) (doc : list El) (e : El)
  (data data1 : object) (c : string) :
  linkParent scene doc e data = Normal (Some data1) -> c ≠ "parentId" ->
  Obj.get c data1 = Obj.get c data.
Proof.
  intros Hl Hc. unfold linkParent in Hl.
  repeat case_match; try done; injection Hl as <-; try done.
  by rewrite get_set_ne.
Qed.

Lemma claimOwner_once (client : string) (b : BroadcastData) (e : El) :
  firebaseBroadcastOnce (claimOwner client b e).1.1 = firebaseBroadcastOnce e.
Proof. unfold claimOwner. simpl. by case_match. Qed.

Lemma addOnce_includes (b : BroadcastData) (e : El) (c : string) :
  c ∈ bd_components b -> c ∈ (addOnce b e).2.
Proof.
  unfold addOnce. case_match; simpl; [done |].
  intros H0. apply elem_of_app. by left.
Qed.

(** The loop of line 202 writes every component it is given. *)
Lemma getData_sets (e : El) (components : list string) (data data' : object)
  (c : string) :
  getData e components data = Normal data' -> c ∈ components ->
  exists v, getComputedAttribute e c = Normal v /\ Obj.get c data' = Some v.
Proof.
  revert data. induction components as [|c0 components IH]; intros data Hrun Hin.
  - by apply elem_of_nil in Hin.
  - simpl in Hrun.
    destruct (getComputedAttribute e c0) as [v|] eqn:Hv; [|done].
    destruct (decide (c ∈ components)) as [Hrest|Hrest]; [by eapply IH |].
    apply elem_of_cons in Hin as [->|Hin]; [|done].
    exists v. split; [done |].
    destruct (getData_get e components _ data' c0 Hrun) as [->|(Hin' & _)];
      [apply get_set_eq | done].
Qed.

Lemma getComputedAttribute_sameOthers (e e' : El) (c : string) :
  sameOthers e e' -> componentOf c ≠ "firebase-broadcast" ->
  getComputedAttribute e' c = getComputedAttribute e c.
Proof.
  intros [_ Ha]. unfold componentOf, getComputedAttribute.
  assert (Hany : forall name, name ≠ "firebase-broadcast" ->
                   computedAttribute e' name = computedAttribute e name).
  { intros name Hne. unfold computedAttribute, Element.getAttribute.
    apply String.eqb_neq in Hne as Hne'. by rewrite Hne', Ha. }
  destruct (split c) as [|a [|p [|q l]]]; intros Hc; by rewrite Hany.
Qed.

Section Fields.

Variables (broadcasting : gmap string handle) (client : string)
  (db : option string) (scene : handle).
Variables (id : string) (s : System) (el : handle) (e : El) (b : BroadcastData).
Hypothesis Hkey : broadcasting !! id = Some el.
Hypothesis Hel : document s !! el = Some e.
Hypothesis Hdata : computedBroadcast e = Some b.

(** Once the flag is raised, a record has the three fields of its head and
    the components of the list [components], no other. *)
Lemma broadcastEntity_fields :
  firebaseBroadcastOnce e = true ->
  forall data c,
    data ∈ updatesAt id
             (issued s (snd (broadcastEntity broadcasting client db scene id s))) ->
    is_Some (Obj.get c data) ->
    c ∈ ["id"; "firebase-broadcast"; "parentId"] \/ c ∈ bd_components b.
Proof.
  intros Hflag data c.
  rewrite (broadcastEntity_unfold broadcasting client db scene id s el e b
             Hkey Hel Hdata).
  pose proof (claimOwner_once client b e) as Honce.
  pose proof (claimOwner_get client b e c) as Hhead.
  destruct (claimOwner client b e) as [[e1 owner] data0]. simpl in *.
  destruct (bd_shared b && negb (String.eqb owner client)).
  { simpl. rewrite issued_same by done. by intros ?%elem_of_nil. }
  unfold addOnce. rewrite Honce, Hflag. cbv zeta.
  destruct (linkParent _ _ e1 data0) as [[data1|]|x] eqn:Hlink;
    try (simpl; rewrite issued_same by done; by intros ?%elem_of_nil).
  destruct (getData e1 (bd_components b) data1) as [data2|x] eqn:Hget;
    try (simpl; rewrite issued_same by done; by intros ?%elem_of_nil).
  destruct db;
    try (simpl; rewrite issued_same by done; by intros ?%elem_of_nil).
  unfold update. destruct (existsb _ data2);
    try (simpl; rewrite issued_same by done; by intros ?%elem_of_nil).
  simpl. rewrite (issued_app _ _ [Update ("entities/" ++ id) data2]) by done.
  rewrite updatesAt_update, String.eqb_refl.
  intros ->%list_elem_of_singleton Hsome.
  destruct (getData_get e1 (bd_components b) data1 data2 c Hget)
    as [Hsame|(Hin & _)]; [|by right].
  left. rewrite Hsame in Hsome.
  destruct (decide (c = "parentId")) as [->|Hp]; [set_solver |].
  rewrite (linkParent_get _ _ _ _ _ c Hlink Hp) in Hsome.
  destruct (decide (c = "id")) as [->|Hi]; [set_solver |].
  destruct (decide (c = "firebase-broadcast")) as [->|Hf]; [set_solver |].
  rewrite Hhead in Hsome by done. by destruct Hsome.
Qed.

(** A record carries, for every component of the list, the value the
    accessor reads on the element. *)
Lemma broadcastEntity_components :
  forall data c,
    data ∈ updatesAt id
             (issued s (snd (broadcastEntity broadcasting client db scene id s))) ->
    c ∈ bd_components b -> componentOf c ≠ "firebase-broadcast" ->
    exists v, getComputedAttribute e c = Normal v /\ Obj.get c data = Some v.
Proof.
  intros data c.
  rewrite (broadcastEntity_unfold broadcasting client db scene id s el e b
             Hkey Hel Hdata).
  pose proof (claimOwner_sameOthers client b e) as H1.
  destruct (claimOwner client b e) as [[e1 owner] data0]. simpl in *.
  destruct (bd_shared b && negb (String.eqb owner client)).
  { simpl. rewrite issued_same by done. by intros ?%elem_of_nil. }
  pose proof (addOnce_sameOthers b e1) as H2.
  pose proof (addOnce_includes b e1 c) as Hinc.
  destruct (addOnce b e1) as [e2 components]. simpl in H2, Hinc. cbv zeta.
  destruct (linkParent _ _ e2 data0) as [[data1|]|x] eqn:Hlink;
    try (simpl; rewrite issued_same by done; by intros ?%elem_of_nil).
  destruct (getData e2 components data1) as [data2|x] eqn:Hget;
    try (simpl; rewrite issued_same by done; by intros ?%elem_of_nil).
  destruct db;
    try (simpl; rewrite issued_same by done; by intros ?%elem_of_nil).
  unfold update. destruct (existsb _ data2);
    try (simpl; rewrite issued_same by done; by intros ?%elem_of_nil).
  simpl. rewrite (issued_app _ _ [Update ("entities/" ++ id) data2]) by done.
  rewrite updatesAt_update, String.eqb_refl.
  intros ->%list_elem_of_singleton Hc Hcomp.
  destruct (getData_sets e2 components data1 data2 c Hget (Hinc Hc))
    as (v & Hv & Hgetc).
  exists v. split; [|done].
  rewrite <- Hv. symmetry. apply getComputedAttribute_sameOthers; [|done].
  by eapply sameOthers_trans.
Qed.

End Fields.

(** *** Runs of ticks *)

Lemma ticks_frame (ts : list Z) (s : System) :
  clientId (ticks ts s) = clientId s /\
  broadcastingEntities (ticks ts s) = broadcastingEntities s /\
  docEvolves (clientId s) s (ticks ts s).
Proof.
  revert s. induction ts as [|t ts IH]; intros s; simpl.
  - repeat split. apply docEvolves_refl.
  - destruct (IH (snd (tick t s))) as (Hc & Hb & Hev).
    destruct (tick_frame s t) as (_ & Hc' & _ & _ & _ & _ & Hb' & _).
    repeat split; [congruence | congruence |].
    eapply docEvolves_trans; [apply tick_docEvolves |].
    by rewrite <- Hc'.
Qed.

(** X16. Components listed in [componentsOnce] are not sent again: once
    the flag of a broadcasting element is raised, every record that any
    later tick sends for it has no field besides [id], [firebase-broadcast],
    [parentId] and the components of the list [components]. *)
Theorem once_components_not_resent (s : System) (k : string) (h : handle)
  (e : El) (b : BroadcastData) (ts : list Z) (t : Z) :
  broadcastingEntities s !! k = Some h ->
  document s !! h = Some e -> computedBroadcast e = Some b ->
  firebaseBroadcastOnce e = true ->
  let s0 := ticks ts s in
  forall data c,
    data ∈ updatesAt k (issued s0 (snd (tick t s0))) ->
    is_Some (Obj.get c data) ->
    c ∈ ["id"; "firebase-broadcast"; "parentId"] \/ c ∈ bd_components b.
Proof.
  intros Hk He Hb Hflag s0 data c Hin.
  destruct (ticks_frame ts s) as (Hc & HB & Hev). fold s0 in Hc, HB, Hev.
  revert Hin.
  apply (tick_updates_at
           (fun s1 => exists e1 b1,
              document s1 !! h = Some e1 /\ computedBroadcast e1 = Some b1 /\
              firebaseBroadcastOnce e1 = true /\
              bd_components b1 = bd_components b)
           (fun data => is_Some (Obj.get c data) ->
              c ∈ ["id"; "firebase-broadcast"; "parentId"] \/ c ∈ bd_components b)).
  - intros k0 s1 _ (e1 & b1 & He1 & Hb1 & Hf1 & Hc1).
    pose proof (broadcastEntity_step (broadcastingEntities s0) (clientId s0)
                  (database s0) (sceneEl s0) k0 s1) as (Hstep & _).
    destruct (Hstep h e1 He1) as (e2 & He2 & _ & Hf2 & _ & _ & Hd2).
    rewrite Hb1 in Hd2.
    destruct (computedBroadcast e2) as [b2|] eqn:Hb2; [|done].
    destruct Hd2 as (_ & Hc2 & _).
    exists e2, b2. repeat split; [done | done | by apply Hf2 | congruence].
  - intros s1 (e1 & b1 & He1 & Hb1 & Hf1 & Hc1) data0 Hin0 Hsome.
    rewrite <- Hc1.
    eapply (broadcastEntity_fields (broadcastingEntities s0) (clientId s0)
              (database s0) (sceneEl s0) k s1 h e1 b1); eauto.
    by rewrite HB.
  - destruct (Hev h e He) as (e1 & He1 & _ & Hf1 & _ & _ & Hd1).
    rewrite Hb in Hd1.
    destruct (computedBroadcast e1) as [b1|] eqn:Hb1; [|done].
    destruct Hd1 as (_ & Hc1 & _).
    exists e1, b1. repeat split; [done | done | by apply Hf1 | done].
Qed.

Lemma once_components_not_resent_witness :
  "position" ∈ ["id"; "firebase-broadcast"; "parentId"] \/
  "position" ∈ ["position"].
Proof.
  refine (once_components_not_resent Scene.afterFirstTick "box1" 1 Scene.sentBox
            {| bd_id := "-K0"; bd_components := ["position"];
               bd_componentsOnce := ["color"]; bd_shared := true;
               bd_owner := "client-a" |} [] 100 _ _ _ _
            [("id", VStr "box1");
             ("firebase-broadcast", VObj [("shared", VBool true)]);
             ("position", VStr "1 2 3")] "position" _ _);
    try (vm_compute; reflexivity).
  - vm_compute. left.
  - vm_compute. by eexists.
Defined.

(** X17. Every record a tick sends for an entity of the Broadcast Table
    carries each component of the list [components], under the name of the
    list, with the value the accessor reads on the element when the tick
    starts (component names addressing [firebase-broadcast] itself apart). *)
Theorem tick_sends_components (s : System) (t : Z) (k : string) (h : handle)
  (e : El) (b : BroadcastData) :
  broadcastingEntities s !! k = Some h ->
  document s !! h = Some e -> computedBroadcast e = Some b ->
  forall data c,
    data ∈ updatesAt k (issued s (snd (tick t s))) ->
    c ∈ bd_components b -> componentOf c ≠ "firebase-broadcast" ->
    exists v, getComputedAttribute e c = Normal v /\ Obj.get c data = Some v.
Proof.
  intros Hk He Hb data c Hin Hc Hcomp. revert Hin.
  apply (tick_updates_at
           (fun s1 => exists e1 b1,
              document s1 !! h = Some e1 /\ computedBroadcast e1 = Some b1 /\
              bd_components b1 = bd_components b /\ sameOthers e e1)
           (fun data =>
              exists v, getComputedAttribute e c = Normal v /\
                        Obj.get c data = Some v)).
  - intros k0 s1 _ (e1 & b1 & He1 & Hb1 & Hc1 & Hs1).
    pose proof (broadcastEntity_step (broadcastingEntities s) (clientId s)
                  (database s) (sceneEl s) k0 s1) as (Hstep & _).
    destruct (Hstep h e1 He1) as (e2 & He2 & _ & _ & _ & _ & Hd2).
    destruct (broadcastEntity_keeps (broadcastingEntities s) (clientId s)
                (database s) (sceneEl s) k0 s1) as [_ Hkeep].
    destruct (Hkeep h e1 He1) as (e2' & He2' & Hs2).
    assert (e2' = e2) as -> by congruence.
    rewrite Hb1 in Hd2.
    destruct (computedBroadcast e2) as [b2|] eqn:Hb2; [|done].
    destruct Hd2 as (_ & Hc2 & _).
    exists e2, b2.
    repeat split; [done | done | congruence | | ];
      destruct Hs1 as [Hp1 Ha1], Hs2 as [Hp2 Ha2]; [congruence |].
    intros name Hne. by rewrite Ha2, Ha1.
  - intros s1 (e1 & b1 & He1 & Hb1 & Hc1 & Hs1) data0 Hin0.
    destruct (broadcastEntity_components (broadcastingEntities s) (clientId s)
                (database s) (sceneEl s) k s1 h e1 b1 Hk He1 Hb1 data0 c Hin0)
      as (v & Hv & Hget); [by rewrite Hc1 | done |].
    exists v. split; [|done].
    rewrite <- Hv. symmetry. by apply getComputedAttribute_sameOthers.
  - exists e, b. repeat split; try done.
Qed.

Lemma tick_sends_components_witness :
  exists v, getComputedAttribute Scene.sentBox "position" = Normal v /\
            Obj.get "position"
              [("id", VStr "box1");
               ("firebase-broadcast", VObj [("shared", VBool true)]);
               ("position", VStr "1 2 3")] = Some v.
Proof.
  refine (tick_sends_components Scene.afterFirstTick 100 "box1" 1 Scene.sentBox
            {| bd_id := "-K0"; bd_components := ["position"];
               bd_componentsOnce := ["color"]; bd_shared := true;
               bd_owner := "client-a" |} _ _ _ _ "position" _ _ _);
    try (vm_compute; reflexivity).
  - vm_compute. left.
  - vm_compute. left.
  - vm_compute. discriminate.
Defined.

(** ** A component that is not there *)

Lemma getData_throws (e : El) (components : list string) (data : object)
  (c : string) (x : exn) :
  c ∈ components -> getComputedAttribute e c = Throw x ->
  exists y, getData e components data = Throw y.
Proof.
  revert data. induction components as [|c0 components IH]; intros data Hin Hc.
  - by apply elem_of_nil in Hin.
  - simpl. destruct (getComputedAttribute e c0) as [v|y] eqn:Hv; [|by exists y].
    apply elem_of_cons in Hin as [->|Hin]; [congruence | by apply IH].
Qed.

(** Line 254: a property of a component the element does not have cannot
    be read. *)
Lemma getComputedAttribute_missing (e : El) (c a p : string) :
  split c = [a; p] -> a ≠ "firebase-broadcast" -> attrs e !! a = None ->
  getComputedAttribute e c = Throw TypeError.
Proof.
  intros Hsplit Hne Ha. unfold getComputedAttribute. rewrite Hsplit.
  unfold computedAttribute, Element.getAttribute.
  apply String.eqb_neq in Hne. by rewrite Hne, Ha.
Qed.

Lemma broadcastEntity_missing_component (broadcasting : gmap string handle)
  (client : string) (db : option string) (scene : handle) (id : string)
  (s : System) (el : handle) (e : El) (b : BroadcastData) (c a p : string) :
  broadcasting !! id = Some el -> document s !! el = Some e ->
  computedBroadcast e = Some b ->
  c ∈ bd_components b -> split c = [a; p] -> a ≠ "firebase-broadcast" ->
  attrs e !! a = None ->
  issued s (snd (broadcastEntity broadcasting client db scene id s)) = [].
Proof.
  intros Hk He Hb Hc Hsplit Hne Ha.
  rewrite (broadcastEntity_unfold broadcasting client db scene id s el e b Hk He Hb).
  pose proof (claimOwner_sameOthers client b e) as H1.
  destruct (claimOwner client b e) as [[e1 owner] data0]. simpl in *.
  destruct (bd_shared b && negb (String.eqb owner client));
    [by apply issued_same |].
  pose proof (addOnce_sameOthers b e1) as H2.
  pose proof (addOnce_includes b e1 c Hc) as Hinc.
  destruct (addOnce b e1) as [e2 components]. simpl in H2, Hinc. cbv zeta.
  destruct (linkParent _ _ e2 data0) as [[data1|]|x];
    try by apply issued_same.
  assert (Ha2 : attrs e2 !! a = None).
  { destruct H1 as [_ Ha1], H2 as [_ Ha2]. by rewrite Ha2, Ha1. }
  destruct (getData_throws e2 components data1 c TypeError Hinc
              (getComputedAttribute_missing e2 c a p Hsplit Hne Ha2)) as [y ->].
  by apply issued_same.
Qed.

(** X2. An entity that lists a property [component|property] of a component
    it does not have is never sent: reading the property raises at line
    254, before the update of line 207, in every tick. *)
Theorem missing_component_never_sent (s : System) (t : Z) (k : string)
  (h : handle) (e : El) (b : BroadcastData) (c a p : string) :
  broadcastingEntities s !! k = Some h ->
  document s !! h = Some e -> computedBroadcast e = Some b ->
  c ∈ bd_components b -> split c = [a; p] -> a ≠ "firebase-broadcast" ->
  attrs e !! a = None ->
  updatesAt k (issued s (snd (tick t s))) = [].
Proof.
  intros Hk He Hb Hc Hsplit Hne Ha. apply nil_of_no_elem.
  apply (tick_updates_at
           (fun s1 => exists e1 b1,
              document s1 !! h = Some e1 /\ computedBroadcast e1 = Some b1 /\
              bd_components b1 = bd_components b /\ attrs e1 !! a = None)
           (fun _ => False)).
  - intros k0 s1 _ (e1 & b1 & He1 & Hb1 & Hc1 & Ha1).
    pose proof (broadcastEntity_step (broadcastingEntities s) (clientId s)
                  (database s) (sceneEl s) k0 s1) as (Hstep & _).
    destruct (Hstep h e1 He1) as (e2 & He2 & _ & _ & _ & _ & Hd2).
    destruct (broadcastEntity_keeps (broadcastingEntities s) (clientId s)
                (database s) (sceneEl s) k0 s1) as [_ Hkeep].
    destruct (Hkeep h e1 He1) as (e2' & He2' & [_ Ha2]).
    assert (e2' = e2) as -> by congruence.
    rewrite Hb1 in Hd2.
    destruct (computedBroadcast e2) as [b2|] eqn:Hb2; [|done].
    destruct Hd2 as (_ & Hc2 & _).
    exists e2, b2. split; [done |]. split; [done |]. split; [congruence |].
    by rewrite Ha2.
  - intros s1 (e1 & b1 & He1 & Hb1 & Hc1 & Ha1) data.
    rewrite (broadcastEntity_missing_component _ _ _ _ k s1 h e1 b1 c a p)
      by (done || by rewrite Hc1).
    by intros ?%elem_of_nil.
  - by exists e, b.
Qed.

Lemma missing_component_never_sent_witness :
  updatesAt "lamp1" (issued Scene.withLamp (snd (tick 0 Scene.withLamp))) = [].
Proof.
  refine (missing_component_never_sent Scene.withLamp 0 "lamp1" 1
            (Element.setProperty Scene.lamp "firebase-broadcast" "id" (VStr "-K0"))
            {| bd_id := "-K0"; bd_components := ["position"; "light|color"];
               bd_componentsOnce := []; bd_shared := false; bd_owner := "" |}
            "light|color" "light" "color" _ _ _ _ _ _ _);
    try (vm_compute; reflexivity).
  - vm_compute. right. left.
  - discriminate.
Defined.
